(** * Benchgen: the testbench generator [benchgen.py]

    A shallow embedding of the generator's functions and of its main script,
    followed by the properties of the packed-vector layout, of the display
    format string and of the generated fragments. *)

From Stdlib Require Import ZArith List String Ascii Lia Bool.
From Stdlib Require Import SpecFloat DecimalString.
Import ListNotations.
Local Open Scope string_scope.
Local Open Scope Z_scope.

(** ** Python exceptions and results

    A computation either returns a value or raises; the three exceptions are
    the ones the generator can reach. *)

Inductive exn : Type :=
| ValueError
| OverflowError
| ZeroDivisionError.

Inductive result (A : Type) : Type :=
| Ok (a : A)
| Err (e : exn).

Arguments Ok {A} a.
Arguments Err {A} e.

Definition bind {A B : Type} (r : result A) (k : A -> result B) : result B :=
  match r with
  | Ok a => k a
  | Err e => Err e
  end.

Notation "x <- r ;; k" := (bind r (fun x => k))
  (at level 61, r at next level, right associativity).

(** A list comprehension [[f x for x in l]]: elements are evaluated left to
    right and the first exception propagates. *)
Fixpoint mapM {A B : Type} (f : A -> result B) (l : list A) : result (list B) :=
  match l with
  | [] => Ok []
  | x :: r => y <- f x ;; ys <- mapM f r ;; Ok (y :: ys)
  end.

(** ** Python floats

    [float] is IEEE 754 binary64; [SpecFloat] is the specification of that
    format (53 bits of precision, round to nearest, ties to even). *)

Module Float.

Definition prec : Z := 53.
Definition emax : Z := 1024.

(** [float(x)] for an [int]: correctly rounded; raises [OverflowError]
    ("int too large to convert to float") beyond the largest double. *)
Definition of_int (x : Z) : result spec_float :=
  match binary_normalize prec emax x 0 false with
  | S754_infinity _ => Err OverflowError
  | f => Ok f
  end.

Definition is_zero (f : spec_float) : bool :=
  match f with
  | S754_zero _ => true
  | _ => false
  end.

(** [a / b] for a float [a] and an [int] [b]: [b] is converted first, a zero
    divisor raises [ZeroDivisionError]. *)
Definition truediv (a : spec_float) (b : Z) : result spec_float :=
  fb <- of_int b ;;
  if is_zero fb then Err ZeroDivisionError else Ok (SFdiv prec emax a fb).

(** [math.ceil(f)]: the exact integer ceiling of [(-1)^s * m * 2^e]. *)
Definition ceil (f : spec_float) : result Z :=
  match f with
  | S754_zero _ => Ok 0
  | S754_infinity _ => Err OverflowError
  | S754_nan => Err ValueError
  | S754_finite s m e =>
      let v := cond_Zopp s (Zpos m) in
      Ok (if 0 <=? e then v * 2 ^ e else - ((- v) / 2 ^ (- e)))
  end.

End Float.

(** ** Python built-ins on strings and lists *)

Definition nl : string := String (ascii_of_nat 10) EmptyString.
Definition dq : string := String (ascii_of_nat 34) EmptyString.

Module Py.

(** [str(n)] and [{}] for an [int]. *)
Definition str (n : Z) : string := NilZero.string_of_int (Z.to_int n).

(** [len(s)]: one character of the string per character of the name. *)
Definition len (s : string) : Z := Z.of_nat (String.length s).

(** [s * n] *)
Fixpoint repeat (s : string) (n : nat) : string :=
  match n with
  | O => EmptyString
  | S n' => s ++ repeat s n'
  end.

(** [{:width}] applied to a string: left-aligned, padded with spaces. A
    width of 0 is written [{:0}], which Python 3.10 and later read as no
    padding. *)
Definition format_width (s : string) (width : Z) : string :=
  s ++ repeat " " (Z.to_nat (width - len s)).

Definition sum (l : list Z) : Z := fold_left Z.add l 0.

(** [max(l)] raises [ValueError] on an empty sequence. *)
Definition max (l : list Z) : result Z :=
  match l with
  | [] => Err ValueError
  | x :: r => Ok (fold_left Z.max r x)
  end.

Definition join (sep : string) (l : list string) : string := String.concat sep l.

End Py.

(** ** The module description

    One object of the ["parameters"] list. The main script reads the direction
    under the key ["type"], the code generation functions read it under the
    key ["io_type"]; the record carries both. *)

Record param : Type := {
  name : string;
  type : string;
  io_type : string;
  idx_hi : Z;
  idx_lo : Z
}.

Record document : Type := {
  module_name : string;
  parameters : list param
}.

(** ** Utility functions *)

Definition round_to_8 (x : Z) (base : Z) : result Z :=
  fx <- Float.of_int x ;;
  q <- Float.truediv fx base ;;
  c <- Float.ceil q ;;
  Ok (base * c).

Definition compute_field_bit_width (idx_hi idx_lo : Z) : Z :=
  (idx_hi + 1) - idx_lo.

Definition compute_field_bit_width_hex (idx_hi idx_lo : Z) : result Z :=
  r <- round_to_8 (compute_field_bit_width idx_hi idx_lo) 4 ;;
  Ok (r / 4).

Definition generate_vector_format_str (field_lengths_hex : list Z) : string :=
  fold_left (fun out length => out ++ "_%0" ++ Py.str length ++ "h")
            field_lengths_hex "%1h".

(** One iteration of the loop of [generate_bit_slice_indices]; the state is
    the list [out] and the cursor [top]. *)
Definition bit_slice_step (st : list (Z * Z) * Z) (x : Z * (Z * Z))
  : list (Z * Z) * Z :=
  let '(out, top) := st in
  let '(hex_length, (idx_hi, idx_lo)) := x in
  let width := compute_field_bit_width idx_hi idx_lo in
  let out_lo := top - hex_length in
  let out_hi := (out_lo + width) - 1 in
  ((out ++ [(out_hi, out_lo)])%list, top - hex_length).

Definition bit_slice_loop (field_lengths_hex : list Z)
    (exact_bit_width_tuples : list (Z * Z)) : list (Z * Z) * Z :=
  let field_lengths_hexbits := map (fun x => x * 4) field_lengths_hex in
  let top := Py.sum field_lengths_hexbits in
  fold_left bit_slice_step
            (combine field_lengths_hexbits exact_bit_width_tuples) ([], top).

Definition generate_bit_slice_indices (field_lengths_hex : list Z)
    (exact_bit_width_tuples : list (Z * Z)) : list (Z * Z) :=
  fst (bit_slice_loop field_lengths_hex exact_bit_width_tuples).

(** The value of [top] when the loop ends. *)
Definition final_top (field_lengths_hex : list Z)
    (exact_bit_width_tuples : list (Z * Z)) : Z :=
  snd (bit_slice_loop field_lengths_hex exact_bit_width_tuples).

(** ** Code generation functions *)

Definition codegen_format_params (slice_index_tuples : list (Z * Z)) : string :=
  let len_tuples := Z.of_nat (List.length slice_index_tuples) in
  fst (fold_left
         (fun (st : string * Z) (t : Z * Z) =>
            let '(out, i) := st in
            let '(idx_hi, idx_lo) := t in
            let out := if 0 <? i then out ++ nl else out in
            let out := out ++ Py.repeat " " 19
                           ++ "vec[" ++ Py.str idx_hi ++ ":" ++ Py.str idx_lo ++ "]" in
            let i := i + 1 in
            let out := if i <? len_tuples then out ++ "," else out in
            (out, i))
         slice_index_tuples (EmptyString, 0)).

Definition logic_decl (v : param) (suffix : string) : string :=
  "logic [" ++ Py.str (idx_hi v) ++ ":" ++ Py.str (idx_lo v) ++ "] "
            ++ name v ++ suffix ++ ";".

Definition codegen_input_decls (variables_list : list param) : string :=
  let out := EmptyString in
  let out := out ++ nl ++ "    // Inputs." ++ nl in
  let out := fold_left (fun out v =>
      if String.eqb (io_type v) "input"
      then out ++ Py.repeat " " 4 ++ logic_decl v EmptyString ++ nl
      else out) variables_list out in
  let out := out ++ nl ++ "    // Outputs." ++ nl in
  let out := fold_left (fun out v =>
      if String.eqb (io_type v) "output"
      then out ++ Py.repeat " " 4 ++ logic_decl v EmptyString ++ nl
      else out) variables_list out in
  let out := out ++ nl ++ "    // Expected Outputs." ++ nl in
  let out := fold_left (fun out v =>
      if String.eqb (io_type v) "output"
      then out ++ Py.repeat " " 4 ++ logic_decl v "_e" ++ nl
      else out) variables_list out in
  out.

Definition codegen_initial_begin_decls (variables_list : list param)
  : result string :=
  max_name_length <- Py.max (map (fun v => Py.len (name v)) variables_list) ;;
  Ok (fold_left (fun out v =>
        if String.eqb (io_type v) "input"
        then out ++ Py.repeat " " 8
                 ++ (Py.format_width (name v) max_name_length ++ " = 0;")
                 ++ nl
        else out) variables_list EmptyString).

Definition current_slice (lhs : string) (width idx_hi idx_lo : Z) : string :=
  Py.format_width lhs width
    ++ " = current[" ++ Py.str idx_hi ++ ":" ++ Py.str idx_lo ++ "];".

Definition codegen_dut_stimulate_block (variables_list : list param)
    (bit_slices_list : list (Z * Z)) : result string :=
  m <- Py.max (map (fun v => Py.len (name v)) variables_list) ;;
  let max_name_length := m + 2 in
  Ok (fold_left (fun out (x : param * (Z * Z)) =>
        let '(v, (idx_hi, idx_lo)) := x in
        let out := out ++ Py.repeat " " 12 in
        let out :=
          if String.eqb (io_type v) "input"
          then out ++ current_slice (name v) max_name_length idx_hi idx_lo
          else if String.eqb (io_type v) "output"
          then out ++ current_slice (name v ++ "_e") max_name_length idx_hi idx_lo
          else out in
        out ++ nl) (combine variables_list bit_slices_list) EmptyString).

(** One iteration of the loop of [codegen_output_check_expr]; the state is
    the text [out] and the counter [i]. *)
Definition output_check_step (st : string * Z) (v : param) : string * Z :=
  let '(out, i) := st in
  let out := if 0 <? i then out ++ " || " else out in
  if String.eqb (io_type v) "output"
  then (out ++ name v ++ " != " ++ name v ++ "_e", i + 1)
  else (out, i).

Definition codegen_output_check_expr (variables_list : list param) : string :=
  fst (fold_left output_check_step variables_list (EmptyString, 0)).

(** ** Template *)

Definition template_bench
    (module_name vec_format_str vec_format_params : string)
    (vec_hi_idx vec_lo_idx : Z)
    (input_decls initial_begin_inputs dut_inputs enable_stimulate_block
     dut_stimulate_block output_check_expr : string) : string :=
  String.concat EmptyString [
    "// Testbench for module '"; module_name; "'."; nl;
    "// WARNING: This file is auto-generated. IF EDITING MANUALLY, YOUR CHANGES MAY BE OVERWRITTEN."; nl;
    "// To generate a test bench like this one, see the "; dq; "Benchgen"; dq; " project on Github."; nl;
    "//   https://github.com/philipaconrad/benchgen"; nl;
    nl;
    "module testbench_"; module_name; ";"; nl;
    nl;
    "    // Function for displaying a test vector like it appears in the source."; nl;
    "    // Cite: https://www.verificationguide.com/p/systemverilog-functions.html (function syntax)"; nl;
    "    function void display_vector(input ["; Py.str (vec_hi_idx); ":"; Py.str (vec_lo_idx); "] vec);"; nl;
    "        begin"; nl;
    "            // Print bit slices back with the '_' formatting."; nl;
    "            // Cite: https://electronics.stackexchange.com/a/50828"; nl;
    "            $write("; dq; vec_format_str; dq; ","; nl;
    vec_format_params; ");"; nl;
    "        end"; nl;
    "    endfunction"; nl;
    nl;
    "    // Input declarations."; nl;
    input_decls; nl;
    nl;
    "    // Testbench variables."; nl;
    "    logic ["; Py.str (vec_hi_idx); ":"; Py.str (vec_lo_idx); "] vectors [999:0]; // 1e3 test vectors"; nl;
    "    logic ["; Py.str (vec_hi_idx); ":"; Py.str (vec_lo_idx); "] current;         // Current test vector"; nl;
    "    logic [31:0] i;                // Vector subscript"; nl;
    "    logic [3:0] enable;            // Test vector enable"; nl;
    "    logic [31:0] error;            // Error counter"; nl;
    nl;
    "    initial begin"; nl;
    initial_begin_inputs; nl;
    "        i     = 0;"; nl;
    "        error = 0;"; nl;
    "    end"; nl;
    nl;
    "    // Instantiate device under test."; nl;
    "    "; module_name; " dut ("; dut_inputs; ");"; nl;
    nl;
    "    initial begin"; nl;
    "        // Load test vectors from disk."; nl;
    "        $readmemh("; dq; "vectors_"; module_name; ".dat"; dq; ", vectors);"; nl;
    nl;
    "        for (i = 0; i < 1000; i = i + 1) begin"; nl;
    "            current = vectors[i];"; nl;
    nl;
    "            // Pull out enable, ... signals to stimulate the DUT."; nl;
    enable_stimulate_block; nl;
    dut_stimulate_block; nl;
    nl;
    "            // Check to see if this test vector is used or not."; nl;
    "            // Vectors in-use always start with 1111."; nl;
    "            if (enable === 4'b1111) begin"; nl;
    "                // Give the ALU time to respond."; nl;
    "                #10;"; nl;
    nl;
    "                // Check the result."; nl;
    "                if ("; output_check_expr; ") begin"; nl;
    "                    error += 1;"; nl;
    "                    $write("; dq; "Vector failed at index: %4d  "; dq; ", i);"; nl;
    "                    display_vector(current);"; nl;
    "                    $display("; dq; dq; "); // Newline at the end."; nl;
    "                end"; nl;
    "            end"; nl;
    "            if (enable === 4'bx) begin"; nl;
    "                $display("; dq; "%4d tests completed with %4d errors"; dq; ", i, error);"; nl;
    "                $stop();"; nl;
    "            end"; nl;
    "        end"; nl;
    nl;
    "        // Tell the simulator we're done."; nl;
    "        $stop();"; nl;
    "    end"; nl;
    nl;
    "endmodule"
  ].

(** ** Application code

    The variables of the main script, as functions of the parsed document
    [j]. *)

Definition parameter_names (j : document) : list string :=
  map name (parameters j).

Definition parameter_widths (j : document) : list (Z * Z) :=
  map (fun x => (idx_hi x, idx_lo x)) (parameters j).

Definition parameter_hex_widths (j : document) : result (list Z) :=
  mapM (fun '(idx_hi, idx_lo) => compute_field_bit_width_hex idx_hi idx_lo)
       (parameter_widths j).

Definition parameter_hex_bit_widths (hex_widths : list Z) : list Z :=
  map (fun x => x * 4) hex_widths.

Definition vec_hi_idx (hex_bit_widths : list Z) : Z :=
  (Py.sum hex_bit_widths + 4) - 1.

Definition vec_lo_idx : Z := 0.

(** [inputs], [outputs] and the name lists are computed by the script and
    used nowhere after. *)
Definition inputs (j : document) : list param :=
  filter (fun x => String.eqb (type x) "input") (parameters j).

Definition input_names (j : document) : list string := map name (inputs j).

Definition outputs (j : document) : list param :=
  filter (fun x => String.eqb (type x) "output") (parameters j).

Definition output_names (j : document) : list string := map name (outputs j).

Definition enable_stimulate_block (hi : Z) : string :=
  "            enable = current[" ++ Py.str hi ++ ":" ++ Py.str (hi - 3) ++ "];" ++ nl.

(** The text written to [outfile], or the exception that ends the run before
    [print] is reached. *)
Definition main (j : document) : result string :=
  let parameters := parameters j in
  hex_widths <- parameter_hex_widths j ;;
  let hi := vec_hi_idx (parameter_hex_bit_widths hex_widths) in
  let vec_format_str := generate_vector_format_str hex_widths in
  let vec_bit_slices := generate_bit_slice_indices hex_widths (parameter_widths j) in
  let vec_format_params := codegen_format_params ((hi, hi - 3) :: vec_bit_slices) in
  let input_decls := codegen_input_decls parameters in
  initial_begin_inputs <- codegen_initial_begin_decls parameters ;;
  let dut_inputs := Py.join ", " (map name parameters) in
  dut_stimulate_block <- codegen_dut_stimulate_block parameters vec_bit_slices ;;
  let output_check_expr := codegen_output_check_expr parameters in
  Ok (template_bench (module_name j) vec_format_str vec_format_params
        hi vec_lo_idx input_decls initial_begin_inputs dut_inputs
        (enable_stimulate_block hi) dut_stimulate_block output_check_expr
      ++ nl).

(** * Specification vocabulary *)

(** The integer ceiling of [a / b] for a positive [b]. *)
Definition cdiv (a b : Z) : Z := - ((- a) / b).

(** The double [4.0]. *)
Definition four : spec_float := S754_finite false 4503599627370496 (-50).

(** [has_sign s f]: the float [f], unless it is a NaN, carries the sign [s]. *)
Definition has_sign (s : bool) (f : spec_float) : Prop :=
  match f with
  | S754_nan => True
  | S754_zero s' | S754_infinity s' | S754_finite s' _ _ => s' = s
  end.

(** The characters of a decimal numeral. *)
Definition decimal_char (c : ascii) : bool :=
  (if Ascii.eqb c "-" then true else false)
  || existsb (Ascii.eqb c)
       ["0"; "1"; "2"; "3"; "4"; "5"; "6"; "7"; "8"; "9"]%char.

(** A field is valid when [bit_hi >= bit_lo >= 0]; a module description is
    valid when it has at least one field and all its fields are valid. *)
Definition valid_param (p : param) : Prop := 0 <= idx_lo p <= idx_hi p.

Definition valid_module_spec (j : document) : Prop :=
  parameters j <> [] /\ Forall valid_param (parameters j).

(** Fields whose raw width a double holds exactly. *)
Definition in_float_range (p : param) : Prop :=
  - 2 ^ 53 <= compute_field_bit_width (idx_hi p) (idx_lo p) <= 2 ^ 53.

(** [total_width]: the number of bits of the packed vector, from its high and
    low index. *)
Definition total_width (hex_widths : list Z) : Z :=
  vec_hi_idx (parameter_hex_bit_widths hex_widths) - vec_lo_idx + 1.

(** The chunk of a field: the half-open bit range [(lo, top)] that starts at
    the field's slice and spans its [hex_width * 4] bits. *)
Definition chunks (hex_widths : list Z) (slices : list (Z * Z)) : list (Z * Z) :=
  map (fun '(w, (_, out_lo)) => (out_lo, out_lo + w * 4)) (combine hex_widths slices).

(** [tiles lo top cs]: the chunks [cs], read in order, are half-open ranges
    that follow one another downwards from [top] to [lo]: each starts where
    the next one ends. *)
Inductive tiles (lo : Z) : Z -> list (Z * Z) -> Prop :=
| tiles_nil : tiles lo lo []
| tiles_cons (top a : Z) (cs : list (Z * Z)) :
    a <= top -> tiles lo a cs -> tiles lo top ((a, top) :: cs).

(** The loop of [generate_bit_slice_indices] read as a recursion over the
    zipped list, from the cursor [top]. *)
Fixpoint slices_from (top : Z) (l : list (Z * (Z * Z))) : list (Z * Z) :=
  match l with
  | [] => []
  | (hex_length, (idx_hi, idx_lo)) :: r =>
      let out_lo := top - hex_length in
      ((out_lo + compute_field_bit_width idx_hi idx_lo) - 1, out_lo)
        :: slices_from (top - hex_length) r
  end.

Definition in_chunk (b : Z) (c : Z * Z) : Prop := fst c <= b < snd c.

Definition nibble_aligned (c : Z * Z) : Prop := (4 | fst c) /\ (4 | snd c).

(** [chunk_bits]: the nibble-aligned size of a field with [w] hex digits. *)
Definition chunk_bits (w : Z) : Z := w * 4.

Fixpoint sum_chunk_bits (hex_widths : list Z) : Z :=
  match hex_widths with
  | [] => 0
  | w :: r => chunk_bits w + sum_chunk_bits r
  end.

(** A field that carries its direction under both keys. *)
Definition field (n dir : string) (hi lo : Z) : param :=
  {| name := n; type := dir; io_type := dir; idx_hi := hi; idx_lo := lo |}.

(** The scenario: the module [adder]. *)
Definition adder : document := {|
  module_name := "adder";
  parameters := [ field "a" "input" 7 0; field "b" "input" 7 0;
                  field "sum" "output" 8 0 ]
|}.

(** A single field of 2^53 + 1 bits: the smallest width a double does not
    hold. *)
Definition wide : document := {|
  module_name := "wide";
  parameters := [ field "a" "input" (2 ^ 53) 0 ]
|}.

(** A field whose high index is below its low index. *)
Definition reversed : document := {|
  module_name := "m";
  parameters := [ field "a" "input" 3 5 ]
|}.

(** An output declared before an input, and an input between two outputs. *)
Definition output_first : list param :=
  [ field "y" "output" 0 0; field "a" "input" 0 0 ].

Definition output_input_output : list param :=
  [ field "x" "output" 0 0; field "a" "input" 0 0; field "y" "output" 0 0 ].

(** The conversion specifier of one field and the disjunct of one output. *)
Definition field_specifier (w : Z) : string := "_%0" ++ Py.str w ++ "h".

Fixpoint specifiers (hex_widths : list Z) : string :=
  match hex_widths with
  | [] => EmptyString
  | w :: r => field_specifier w ++ specifiers r
  end.

Definition is_output (v : param) : bool := String.eqb (io_type v) "output".

Definition disjunct (v : param) : string := name v ++ " != " ++ name v ++ "_e".

(** What the fields after the first output add to the mismatch expression:
    a separator each, and a disjunct for the outputs among them. *)
Fixpoint after_first_output (l : list param) : string :=
  match l with
  | [] => EmptyString
  | v :: r => " || " ++ (if is_output v then disjunct v else EmptyString) ++ after_first_output r
  end.

Fixpoint count_char (c : ascii) (s : string) : nat :=
  match s with
  | EmptyString => 0%nat
  | String a r => ((if Ascii.eqb a c then 1 else 0) + count_char c r)%nat
  end.

(** ** Vocabulary of the generated fragments *)

Definition is_input (v : param) : bool := String.eqb (io_type v) "input".

(** The texts [f x], one after the other. *)
Fixpoint lines_of {A : Type} (f : A -> string) (l : list A) : string :=
  match l with
  | [] => EmptyString
  | x :: r => f x ++ lines_of f r
  end.

(** One argument of the [$write] call. *)
Definition format_param_line (t : Z * Z) : string :=
  Py.repeat " " 19 ++ "vec[" ++ Py.str (fst t) ++ ":" ++ Py.str (snd t) ++ "]".

(** One declaration, one zero-initialisation and one extraction line. *)
Definition decl_line (suffix : string) (v : param) : string :=
  Py.repeat " " 4 ++ logic_decl v suffix ++ nl.

Definition initial_line (max_name_length : Z) (v : param) : string :=
  Py.repeat " " 8 ++ (Py.format_width (name v) max_name_length ++ " = 0;") ++ nl.

Definition stimulate_line (width : Z) (x : param * (Z * Z)) : string :=
  Py.repeat " " 12
    ++ (if is_input (fst x)
        then current_slice (name (fst x)) width (fst (snd x)) (snd (snd x))
        else if is_output (fst x)
        then current_slice (name (fst x) ++ "_e") width (fst (snd x)) (snd (snd x))
        else EmptyString)
    ++ nl.

(** * Properties *)

(** ** Floats: conversions and division by four are exact up to 2^53 *)

Section FloatFacts.
Import Float.

Lemma iter_xO_val (m d : positive) :
  Zpos (Pos.iter xO m d) = Zpos m * 2 ^ Zpos d.
Proof.
  induction d as [|d IH] using Pos.peano_ind.
  - simpl Pos.iter. change (2 ^ 1) with 2. lia.
  - rewrite Pos.iter_succ, Pos2Z.inj_xO, IH, Pos2Z.inj_succ, Z.pow_succ_r by lia. ring.
Qed.

Lemma iter_xO_digits (m d : positive) :
  Zpos (digits2_pos (Pos.iter xO m d)) = Zpos (digits2_pos m) + Zpos d.
Proof.
  induction d as [|d IH] using Pos.peano_ind.
  - simpl. lia.
  - rewrite Pos.iter_succ. simpl digits2_pos. rewrite Pos2Z.inj_succ, IH. lia.
Qed.

Lemma digits2_pos_size (m : positive) : digits2_pos m = Pos.size m.
Proof. induction m; simpl; congruence. Qed.

Lemma digits2_pos_le (m : positive) (n : Z) :
  Zpos m < 2 ^ n -> 0 <= n -> Zpos (digits2_pos m) <= n.
Proof.
  intros Hm Hn. rewrite digits2_pos_size.
  pose proof (Pos.size_le m) as Hs.
  assert (H2 : 2 ^ Zpos (Pos.size m) <= 2 * Zpos m).
  { rewrite <- Pos2Z.inj_pow. change (2 * Zpos m) with (Zpos m~0). lia. }
  destruct (Z.le_gt_cases (Zpos (Pos.size m)) n) as [|Hgt]; [assumption|].
  assert (2 ^ (n + 1) <= 2 ^ Zpos (Pos.size m)) by (apply Z.pow_le_mono_r; lia).
  replace (n + 1) with (Z.succ n) in H by lia.
  rewrite Z.pow_succ_r in H by lia. lia.
Qed.

Lemma shl_align_spec (m : positive) (e e' : Z) :
  e' <= e ->
  exists mz, shl_align m e e' = (mz, e')
    /\ Zpos mz = Zpos m * 2 ^ (e - e')
    /\ Zpos (digits2_pos mz) = Zpos (digits2_pos m) + (e - e').
Proof.
  intros Hle. unfold shl_align.
  destruct (e' - e) as [|d|d] eqn:Hd; try lia.
  - assert (e' = e) by lia. subst e'. exists m.
    rewrite Z.sub_diag. simpl. repeat split; lia.
  - exists (Pos.iter xO m d).
    assert (He : e - e' = Zpos d) by lia. rewrite He.
    repeat split; [apply iter_xO_val | apply iter_xO_digits].
Qed.

Lemma binary_round_aux_canonical (s : bool) (M : positive) (e : Z) :
  canonical_mantissa prec emax M e = true -> e <= emax - prec ->
  binary_round_aux prec emax s (Zpos M) e loc_Exact = S754_finite s M e.
Proof.
  unfold canonical_mantissa. intros Hc He. apply Z.eqb_eq in Hc.
  unfold binary_round_aux, shr_fexp. simpl Zdigits2.
  rewrite Hc, Z.sub_diag. cbn [shr shr_record_of_loc]. 
  cbv beta iota. cbn [shr_m loc_of_shr_record round_nearest_even Zdigits2].
  rewrite Hc, Z.sub_diag. cbn [shr shr_record_of_loc shr_m].
  apply Z.leb_le in He. rewrite He. reflexivity.
Qed.

Lemma fexp_small (n : Z) : -1021 <= n -> fexp prec emax n = n - 53.
Proof. intros H. unfold fexp, emin, prec, emax. lia. Qed.

(** Converting an integer below 2^53 loses nothing: the mantissa is the
    integer shifted to 53 digits. *)
Lemma binary_round_exact (s : bool) (m : positive) :
  Zpos m < 2 ^ 53 ->
  exists M k, binary_round prec emax s m 0 = S754_finite s M (- k)
    /\ 0 <= k <= 52 /\ Zpos M = Zpos m * 2 ^ k /\ Zpos (digits2_pos M) = 53.
Proof.
  intros Hm.
  pose proof (digits2_pos_le m 53 Hm ltac:(lia)) as Hd.
  assert (Hd1 : 1 <= Zpos (digits2_pos m)) by lia.
  unfold binary_round. rewrite Z.add_0_r, fexp_small by lia.
  destruct (shl_align_spec m 0 (Zpos (digits2_pos m) - 53) ltac:(lia))
    as (M & -> & Hv & Hdg).
  exists M, (53 - Zpos (digits2_pos m)).
  replace (- (53 - Zpos (digits2_pos m))) with (Zpos (digits2_pos m) - 53) by lia.
  replace (0 - (Zpos (digits2_pos m) - 53)) with (53 - Zpos (digits2_pos m)) in Hv, Hdg by lia.
  repeat split; try lia.
  apply binary_round_aux_canonical.
  - unfold canonical_mantissa. rewrite Hdg. apply Z.eqb_eq. rewrite fexp_small; lia.
  - unfold emax, prec. lia.
Qed.

Lemma of_int_4 : of_int 4 = Ok four.
Proof. reflexivity. Qed.

(** Dividing a normal number by [4.0] only lowers the exponent. *)
Lemma SFdiv_four (s : bool) (M : positive) (e : Z) :
  Zpos (digits2_pos M) = 53 -> -1000 <= e <= 900 ->
  SFdiv prec emax (S754_finite s M e) four = S754_finite s M (e - 2).
Proof.
  intros Hd He. unfold four, SFdiv, SFdiv_core_binary.
  cbn [Zdigits2]. rewrite Hd. change (Zpos (digits2_pos 4503599627370496)) with 53.
  replace (53 + e - (53 + -50)) with (e + 50) by lia.
  rewrite fexp_small by lia.
  rewrite Z.min_l by lia.
  replace (e - -50 - (e + 50 - 53)) with 53 by lia.
  rewrite Z.shiftl_mul_pow2 by lia.
  assert (Hq : Z.div_eucl (Zpos M * 2 ^ 53) 4503599627370496 = (Zpos M~0, 0)).
  { pose proof (Z.div_eucl_eq (Zpos M * 2 ^ 53) 4503599627370496 ltac:(lia)) as Heq.
    pose proof (Z.mod_pos_bound (Zpos M * 2 ^ 53) 4503599627370496 ltac:(lia)) as Hb.
    unfold Z.modulo in Hb.
    destruct (Z.div_eucl (Zpos M * 2 ^ 53) 4503599627370496) as [q r].
    change (2 ^ 53) with 9007199254740992 in *.
    f_equal; lia. }
  rewrite Hq.
  change (new_location 4503599627370496 0) with loc_Exact.
  rewrite Bool.xorb_false_r.
  unfold binary_round_aux, shr_fexp. cbn [Zdigits2 digits2_pos].
  rewrite Pos2Z.inj_succ, Hd.
  replace (Z.succ 53 + (e + 50 - 53)) with (e + 51) by lia.
  rewrite fexp_small by lia.
  replace (e + 51 - 53 - (e + 50 - 53)) with 1 by lia.
  cbn [shr shr_record_of_loc iter_pos shr_1 orb]. cbv beta iota.
  cbn [shr_m loc_of_shr_record round_nearest_even Zdigits2].
  rewrite Hd.
  replace (53 + (e + 50 - 53 + 1)) with (e + 51) by lia.
  rewrite fexp_small by lia.
  replace (e + 51 - 53 - (e + 50 - 53 + 1)) with 0 by lia.
  cbn [shr shr_record_of_loc shr_m].
  replace (e + 50 - 53 + 1) with (e - 2) by lia.
  assert (Hle : (e - 2 <=? emax - prec) = true) by (apply Z.leb_le; unfold emax, prec; lia).
  rewrite Hle. reflexivity.
Qed.

Lemma cdiv_scale (a k : Z) : 0 <= k -> cdiv (a * 2 ^ k) (2 ^ (k + 2)) = cdiv a 4.
Proof.
  intros Hk. unfold cdiv. f_equal.
  rewrite Z.pow_add_r by lia. change (2 ^ 2) with 4.
  rewrite <- Z.mul_opp_l, (Z.mul_comm (2 ^ k) 4).
  apply Z.div_mul_cancel_r; lia.
Qed.

Lemma round_to_8_pos (s : bool) (m : positive) :
  Zpos m < 2 ^ 53 ->
  round_to_8 (cond_Zopp s (Zpos m)) 4 = Ok (4 * cdiv (cond_Zopp s (Zpos m)) 4).
Proof.
  intros Hm. destruct (binary_round_exact s m Hm) as (M & k & Hr & Hk & Hv & Hd).
  unfold round_to_8, of_int.
  assert (Hn : binary_normalize prec emax (cond_Zopp s (Zpos m)) 0 false = S754_finite s M (- k)).
  { destruct s; simpl; exact Hr. }
  rewrite Hn. cbn [bind]. unfold truediv. rewrite of_int_4. cbn [bind is_zero four].
  fold four. rewrite SFdiv_four by lia.
  cbn [bind ceil].
  assert (Hneg : (0 <=? - k - 2) = false) by (apply Z.leb_gt; lia).
  rewrite Hneg. do 2 f_equal.
  replace (- (- k - 2)) with (k + 2) by lia.
  fold (cdiv (cond_Zopp s (Zpos M)) (2 ^ (k + 2))).
  replace (cond_Zopp s (Zpos M)) with (cond_Zopp s (Zpos m) * 2 ^ k)
    by (destruct s; simpl cond_Zopp; lia).
  apply cdiv_scale; lia.
Qed.

(** [round_to_8 x 4] is the next multiple of four whenever [|x| <= 2^53]. *)
Lemma round_to_8_exact (x : Z) :
  - 2 ^ 53 <= x <= 2 ^ 53 -> round_to_8 x 4 = Ok (4 * cdiv x 4).
Proof.
  intros Hx.
  destruct (Z.eq_dec x (2 ^ 53)) as [->|Hhi]; [reflexivity|].
  destruct (Z.eq_dec x (- 2 ^ 53)) as [->|Hlo]; [reflexivity|].
  destruct x as [|m|m].
  - reflexivity.
  - apply (round_to_8_pos false m). lia.
  - apply (round_to_8_pos true m). lia.
Qed.
End FloatFacts.

(** ** Field widths *)

Lemma cdiv_4 (x : Z) : cdiv x 4 = (x + 3) / 4.
Proof.
  unfold cdiv.
  pose proof (Z.div_mod (- x) 4 ltac:(lia)) as H1.
  pose proof (Z.mod_pos_bound (- x) 4 ltac:(lia)) as H2.
  pose proof (Z.div_mod (x + 3) 4 ltac:(lia)) as H3.
  pose proof (Z.mod_pos_bound (x + 3) 4 ltac:(lia)) as H4.
  lia.
Qed.

Lemma cdiv_4_bounds (x : Z) : x <= cdiv x 4 * 4 < x + 4.
Proof.
  rewrite cdiv_4.
  pose proof (Z.div_mod (x + 3) 4 ltac:(lia)) as H1.
  pose proof (Z.mod_pos_bound (x + 3) 4 ltac:(lia)) as H2.
  lia.
Qed.

Lemma compute_field_bit_width_hex_exact (hi lo : Z) :
  - 2 ^ 53 <= compute_field_bit_width hi lo <= 2 ^ 53 ->
  compute_field_bit_width_hex hi lo = Ok (cdiv (compute_field_bit_width hi lo) 4).
Proof.
  intros H. unfold compute_field_bit_width_hex.
  rewrite round_to_8_exact by exact H. cbn [bind]. f_equal.
  rewrite Z.mul_comm. apply Z.div_mul. lia.
Qed.

(** In that range the hex digits are the fewest that hold the field. *)
Lemma compute_field_bit_width_hex_minimal (hi lo : Z) :
  - 2 ^ 53 <= compute_field_bit_width hi lo <= 2 ^ 53 ->
  exists n, compute_field_bit_width_hex hi lo = Ok n
    /\ n = (compute_field_bit_width hi lo + 3) / 4
    /\ compute_field_bit_width hi lo <= chunk_bits n
    /\ chunk_bits (n - 1) < compute_field_bit_width hi lo.
Proof.
  intros H. exists (cdiv (compute_field_bit_width hi lo) 4).
  split; [apply compute_field_bit_width_hex_exact, H|].
  split; [apply cdiv_4|].
  pose proof (cdiv_4_bounds (compute_field_bit_width hi lo)).
  unfold chunk_bits. lia.
Qed.

(** The sign of a rounded result is the sign that was asked for. *)
Lemma binary_round_aux_sign (s : bool) (m e : Z) (l : location) :
  has_sign s (binary_round_aux Float.prec Float.emax s m e l).
Proof.
  unfold binary_round_aux.
  destruct (shr_fexp _ _ m e l) as [mrs' e'].
  destruct (shr_fexp _ _ _ e' loc_Exact) as [mrs'' e''].
  destruct (shr_m mrs''); simpl; auto.
  destruct (e'' <=? _); simpl; auto.
Qed.

Lemma ceil_nonneg (f : spec_float) (c : Z) :
  has_sign false f -> Float.ceil f = Ok c -> 0 <= c.
Proof.
  destruct f as [s|s| |s m e]; cbn [Float.ceil has_sign]; intros Hs Hc;
    try discriminate.
  - injection Hc as <-. lia.
  - subst s. injection Hc as <-. cbn [cond_Zopp].
    destruct (0 <=? e) eqn:He.
    + apply Z.leb_le in He. change (0 <= Zpos m * 2 ^ e).
      apply Z.mul_nonneg_nonneg; [lia | apply Z.pow_nonneg; lia].
    + apply Z.leb_gt in He. change (- Zpos m) with (Z.neg m).
      assert (Hp : 0 < 2 ^ (- e)) by (apply Z.pow_pos_nonneg; lia).
      assert (Z.neg m / 2 ^ (- e) < 0)
        by (apply Z.div_lt_upper_bound; [exact Hp | rewrite Z.mul_0_r; lia]).
      lia.
Qed.

(** A positive width never gets a negative number of hex digits, whatever
    the rounding does. *)
Lemma compute_field_bit_width_hex_nonneg (hi lo w : Z) :
  lo <= hi -> compute_field_bit_width_hex hi lo = Ok w -> 0 <= w.
Proof.
  unfold compute_field_bit_width_hex, round_to_8, compute_field_bit_width.
  intros Hle.
  destruct (hi + 1 - lo) as [|m|m] eqn:Hx; try lia.
  unfold Float.of_int. cbn [binary_normalize].
  pose proof (binary_round_aux_sign false) as Hsig.
  unfold binary_round.
  destruct (shl_align m 0 _) as [mz ez].
  specialize (Hsig (Zpos mz) ez loc_Exact).
  destruct (binary_round_aux _ _ false (Zpos mz) ez loc_Exact) as [s|s| |s M e] eqn:Hr;
    cbn [bind]; try discriminate; simpl in Hsig; subst s;
    unfold Float.truediv; rewrite of_int_4; cbn [bind Float.is_zero four];
    fold four.
  - intros H. vm_compute in H. injection H as <-. lia.
  - unfold SFdiv, four.
    destruct (SFdiv_core_binary _ _ (Zpos M) e _ _) as [[mq eq] lq].
    pose proof (binary_round_aux_sign (xorb false false) mq eq lq) as Hs2.
    destruct (Float.ceil _) as [c|] eqn:Hc; cbn [bind]; try discriminate.
    intros H. assert (Hw : 4 * c / 4 = w) by congruence.
    pose proof (ceil_nonneg _ _ Hs2 Hc).
    rewrite Z.mul_comm, Z.div_mul in Hw by lia. lia.
Qed.

(** ** List comprehensions and sums *)

Lemma mapM_Forall2 {A B : Type} (f : A -> result B) (l : list A) (ys : list B) :
  mapM f l = Ok ys -> Forall2 (fun x y => f x = Ok y) l ys.
Proof.
  revert ys. induction l as [|x l IH]; intros ys H; simpl in H.
  - injection H as <-. constructor.
  - destruct (f x) as [y|] eqn:Hy; cbn [bind] in H; try discriminate.
    destruct (mapM f l) as [ys'|] eqn:Hys; cbn [bind] in H; try discriminate.
    injection H as <-. constructor; auto.
Qed.

Lemma mapM_total {A B : Type} (f : A -> result B) (g : A -> B) (l : list A) :
  Forall (fun x => f x = Ok (g x)) l -> mapM f l = Ok (map g l).
Proof.
  induction 1 as [|x l Hx _ IH]; simpl; [reflexivity|].
  rewrite Hx, IH. reflexivity.
Qed.

Lemma sum_from (l : list Z) (a : Z) : fold_left Z.add l a = a + Py.sum l.
Proof.
  unfold Py.sum. revert a. induction l as [|x l IH]; intros a; simpl.
  - lia.
  - rewrite (IH (a + x)), (IH x). lia.
Qed.

Lemma sum_cons (x : Z) (l : list Z) : Py.sum (x :: l) = x + Py.sum l.
Proof. unfold Py.sum at 1. simpl. apply sum_from. Qed.

Lemma sum_nil : Py.sum [] = 0.
Proof. reflexivity. Qed.

Lemma sum_nonneg (l : list Z) : Forall (fun x => 0 <= x) l -> 0 <= Py.sum l.
Proof.
  induction 1 as [|x l Hx _ IH]; [rewrite sum_nil | rewrite sum_cons]; lia.
Qed.

Lemma sum_firstn_skipn (n : nat) (l : list Z) :
  Py.sum l = Py.sum (firstn n l) + Py.sum (skipn n l).
Proof.
  revert l. induction n as [|n IH]; intros [|x l]; simpl; rewrite ?sum_nil; try lia.
  rewrite !sum_cons, (IH l). lia.
Qed.

(** ** The main script's hex widths *)

Lemma parameter_hex_widths_spec (j : document) (ws : list Z) :
  parameter_hex_widths j = Ok ws ->
  Forall2 (fun p w => compute_field_bit_width_hex (idx_hi p) (idx_lo p) = Ok w)
          (parameters j) ws.
Proof.
  unfold parameter_hex_widths, parameter_widths. intros H.
  apply mapM_Forall2 in H. remember (parameters j) as ps eqn:E. clear E.
  revert ws H. induction ps as [|p ps IH]; intros ws H; simpl in H;
    inversion H; subst; constructor; auto.
Qed.

Lemma parameter_hex_widths_length (j : document) (ws : list Z) :
  parameter_hex_widths j = Ok ws -> List.length ws = List.length (parameters j).
Proof.
  intros H. symmetry. eapply Forall2_length, parameter_hex_widths_spec, H.
Qed.

Lemma parameter_hex_widths_nonneg (j : document) (ws : list Z) :
  Forall valid_param (parameters j) ->
  parameter_hex_widths j = Ok ws -> Forall (fun w => 0 <= w) ws.
Proof.
  intros Hv H. apply parameter_hex_widths_spec in H.
  induction H as [|p w ps ws Hp _ IH]; constructor.
  - inversion Hv; subst. unfold valid_param in *.
    eapply compute_field_bit_width_hex_nonneg; [|exact Hp]. lia.
  - apply IH. inversion Hv; assumption.
Qed.

(** Within the range of exact doubles the widths are always computed, and
    each is the ceiling of a quarter of the raw width. *)
Lemma parameter_hex_widths_in_range (j : document) :
  Forall in_float_range (parameters j) ->
  parameter_hex_widths j =
    Ok (map (fun p => cdiv (compute_field_bit_width (idx_hi p) (idx_lo p)) 4)
            (parameters j)).
Proof.
  intros H. unfold parameter_hex_widths, parameter_widths.
  rewrite <- (map_map (fun x => (idx_hi x, idx_lo x))
                      (fun '(hi, lo) => cdiv (compute_field_bit_width hi lo) 4)).
  apply mapM_total. apply Forall_map.
  eapply Forall_impl; [|exact H]. intros p Hp.
  apply compute_field_bit_width_hex_exact, Hp.
Qed.

(** ** The layout loop *)

Lemma fold_bit_slice_step (l : list (Z * (Z * Z))) (out : list (Z * Z)) (top : Z) :
  fold_left bit_slice_step l (out, top)
  = ((out ++ slices_from top l)%list, top - Py.sum (map fst l)).
Proof.
  revert out top. induction l as [|[h [hi lo]] l IH]; intros out top; simpl.
  - rewrite app_nil_r, sum_nil. f_equal. lia.
  - rewrite IH, <- app_assoc, sum_cons. simpl. f_equal. lia.
Qed.

Lemma bit_slice_loop_eq (ws : list Z) (tuples : list (Z * Z)) :
  bit_slice_loop ws tuples
  = (slices_from (Py.sum (map (fun x => x * 4) ws))
                 (combine (map (fun x => x * 4) ws) tuples),
     Py.sum (map (fun x => x * 4) ws)
       - Py.sum (map fst (combine (map (fun x => x * 4) ws) tuples))).
Proof. unfold bit_slice_loop. apply fold_bit_slice_step. Qed.

Lemma map_fst_combine {A B : Type} (a : list A) (b : list B) :
  List.length a = List.length b -> map fst (combine a b) = a.
Proof.
  revert b. induction a as [|x a IH]; intros [|y b] H; simpl in *;
    try discriminate; [reflexivity|]. f_equal. apply IH. lia.
Qed.

Lemma final_top_zero (ws : list Z) (tuples : list (Z * Z)) :
  List.length ws = List.length tuples -> final_top ws tuples = 0.
Proof.
  intros H. unfold final_top. rewrite bit_slice_loop_eq. simpl.
  rewrite map_fst_combine by (rewrite length_map; exact H). lia.
Qed.

Lemma slices_from_length (top : Z) (l : list (Z * (Z * Z))) :
  List.length (slices_from top l) = List.length l.
Proof.
  revert top. induction l as [|[h [hi lo]] l IH]; intros top; simpl; auto.
Qed.

Lemma tiles_cons_eq (lo top a t : Z) (cs : list (Z * Z)) :
  t = top -> a <= top -> tiles lo a cs -> tiles lo top ((a, t) :: cs).
Proof. intros ->. apply tiles_cons. Qed.

Lemma tiles_slices_from (ws : list Z) (tuples : list (Z * Z)) (top : Z) :
  List.length ws = List.length tuples ->
  Forall (fun w => 0 <= w) ws ->
  tiles (top - Py.sum (map (fun x => x * 4) ws)) top
        (chunks ws (slices_from top (combine (map (fun x => x * 4) ws) tuples))).
Proof.
  revert tuples top. induction ws as [|w ws IH]; intros [|[hi lo] tuples] top Hl Hw;
    simpl in Hl; try discriminate.
  - simpl. rewrite sum_nil, Z.sub_0_r. constructor.
  - inversion Hw; subst. cbn [map combine slices_from chunks]. rewrite sum_cons.
    apply tiles_cons_eq; [lia | lia |].
    replace (top - (w * 4 + Py.sum (map (fun x => x * 4) ws)))
      with (top - w * 4 - Py.sum (map (fun x => x * 4) ws)) by lia.
    apply IH; [lia | assumption].
Qed.

Lemma tiles_bounds (lo top : Z) (cs : list (Z * Z)) :
  tiles lo top cs -> lo <= top /\ Forall (fun c => lo <= fst c /\ snd c <= top) cs.
Proof.
  induction 1 as [|top a cs Ha _ [IH1 IH2]]; [split; [lia | constructor]|].
  split; [lia|]. constructor; [simpl; lia|].
  eapply Forall_impl; [|exact IH2]. simpl. intros c [? ?]. lia.
Qed.

(** Tiling, bit by bit: every position of the range lies in one chunk and in
    no other. *)
Lemma tiles_cover (lo top : Z) (cs : list (Z * Z)) :
  tiles lo top cs ->
  forall b, lo <= b < top ->
    exists i c, nth_error cs i = Some c /\ in_chunk b c
      /\ forall i' c', nth_error cs i' = Some c' -> in_chunk b c' -> i' = i.
Proof.
  induction 1 as [|top a cs Ha Ht IH]; intros b Hb; [lia|].
  destruct (Z_lt_le_dec b a) as [Hlt|Hge].
  - destruct (IH b ltac:(lia)) as (i & c & Hi & Hc & Hu).
    exists (S i), c. repeat split; try assumption; try apply Hc.
    intros [|i'] c' Hi' Hc'; simpl in Hi'.
    + injection Hi' as <-. unfold in_chunk in Hc'. simpl in Hc'. lia.
    + f_equal. eapply Hu; eassumption.
  - exists 0%nat, (a, top). repeat split; simpl; try lia.
    intros [|i'] c' Hi' Hc'; [reflexivity|]. simpl in Hi'.
    apply tiles_bounds in Ht. destruct Ht as [_ Hall].
    apply nth_error_In in Hi'. rewrite Forall_forall in Hall.
    apply Hall in Hi'. unfold in_chunk in Hc'. lia.
Qed.

Lemma chunks_aligned (ws : list Z) (tuples : list (Z * Z)) (top : Z) :
  (4 | top) ->
  Forall nibble_aligned
         (chunks ws (slices_from top (combine (map (fun x => x * 4) ws) tuples))).
Proof.
  revert tuples top. induction ws as [|w ws IH]; intros [|[hi lo] tuples] top Ht;
    cbn [map combine slices_from chunks]; try constructor.
  - assert (Hlo : (4 | top - w * 4))
      by (apply Z.divide_sub_r; [exact Ht | apply Z.divide_factor_r]).
    split; cbn [fst snd]; [exact Hlo|].
    apply Z.divide_add_r; [exact Hlo | apply Z.divide_factor_r].
  - apply IH. apply Z.divide_sub_r; [exact Ht | apply Z.divide_factor_r].
Qed.

Lemma sum_chunk_bits_aligned (ws : list Z) : (4 | sum_chunk_bits ws).
Proof.
  induction ws as [|w ws IH]; simpl; [apply Z.divide_0_r|].
  apply Z.divide_add_r; [apply Z.divide_factor_r | exact IH].
Qed.

Lemma tiles_last (lo top : Z) (cs : list (Z * Z)) (d : Z * Z) :
  tiles lo top cs -> cs <> [] -> fst (last cs d) = lo.
Proof.
  induction 1 as [|top a cs Ha Ht IH]; intros Hne; [congruence|].
  destruct cs as [|c cs]; [inversion Ht; reflexivity|].
  change (last ((a, top) :: c :: cs) d) with (last (c :: cs) d).
  apply IH. discriminate.
Qed.

Lemma sum_chunk_bits_eq (ws : list Z) :
  Py.sum (parameter_hex_bit_widths ws) = sum_chunk_bits ws.
Proof.
  unfold parameter_hex_bit_widths. induction ws as [|w ws IH]; simpl.
  - apply sum_nil.
  - rewrite sum_cons, IH. reflexivity.
Qed.

Lemma total_width_eq (ws : list Z) : total_width ws = 4 + sum_chunk_bits ws.
Proof.
  unfold total_width, vec_hi_idx, vec_lo_idx. rewrite sum_chunk_bits_eq. lia.
Qed.

Lemma generate_bit_slice_indices_eq (ws : list Z) (tuples : list (Z * Z)) :
  generate_bit_slice_indices ws tuples
  = slices_from (sum_chunk_bits ws) (combine (parameter_hex_bit_widths ws) tuples).
Proof.
  unfold generate_bit_slice_indices. rewrite bit_slice_loop_eq. simpl.
  fold (parameter_hex_bit_widths ws). rewrite sum_chunk_bits_eq. reflexivity.
Qed.

Lemma chunks_length (ws : list Z) (slices : list (Z * Z)) :
  List.length ws = List.length slices ->
  List.length (chunks ws slices) = List.length ws.
Proof.
  intros H. unfold chunks. rewrite length_map, length_combine. lia.
Qed.

Lemma adder_valid : valid_module_spec adder.
Proof.
  split; [discriminate|].
  repeat constructor; unfold valid_param; simpl; lia.
Qed.

Lemma adder_hex_widths : parameter_hex_widths adder = Ok [2; 2; 3].
Proof. reflexivity. Qed.

(** ** The scenario *)

(** C1. For [adder] with fields a(input, 7..0), b(input, 7..0) and
    sum(output, 8..0) the main script derives the hex widths 2, 2 and 3, a
    vector of 32 bits with high index 31, the data slices [27:20], [19:12]
    and [8:0], the format string ["%1h_%02h_%02h_%03h"] and the mismatch
    expression ["sum != sum_e"], and the text it prints is the template
    filled with these. *)
Theorem adder_scenario :
  parameter_hex_widths adder = Ok [2; 2; 3]
  /\ total_width [2; 2; 3] = 32
  /\ vec_hi_idx (parameter_hex_bit_widths [2; 2; 3]) = 31
  /\ generate_bit_slice_indices [2; 2; 3] (parameter_widths adder)
     = [(27, 20); (19, 12); (8, 0)]
  /\ generate_vector_format_str [2; 2; 3] = "%1h_%02h_%02h_%03h"
  /\ codegen_output_check_expr (parameters adder) = "sum != sum_e"
  /\ exists fp decls init stim,
       main adder
       = Ok (template_bench "adder" "%1h_%02h_%02h_%03h" fp 31 0 decls init
               "a, b, sum" (enable_stimulate_block 31) stim "sum != sum_e"
             ++ nl).
Proof.
  repeat split; try reflexivity.
  exists (codegen_format_params [(31, 28); (27, 20); (19, 12); (8, 0)]),
         (codegen_input_decls (parameters adder)),
         ("        a   = 0;" ++ nl ++ "        b   = 0;" ++ nl),
         ("            a     = current[27:20];" ++ nl
          ++ "            b     = current[19:12];" ++ nl
          ++ "            sum_e = current[8:0];" ++ nl).
  vm_compute. reflexivity.
Qed.

(** ** The layout *)

(** C2. For every valid module description whose hex widths are computed,
    the chunks of the fields are nibble-aligned and, taken in declaration
    order, follow one another downwards from [total_width - 4] to 0: no gap,
    no overlap, every bit of [0, total_width - 4) in exactly one chunk, the
    last declared field lowest; and the cursor [top] is 0 when the loop
    ends. *)
Theorem chunks_tile_vector (j : document) (ws : list Z) :
  valid_module_spec j ->
  parameter_hex_widths j = Ok ws ->
  let cs := chunks ws (generate_bit_slice_indices ws (parameter_widths j)) in
  List.length cs = List.length (parameters j)
  /\ Forall nibble_aligned cs
  /\ tiles 0 (total_width ws - 4) cs
  /\ (forall b, 0 <= b < total_width ws - 4 ->
        exists i c, nth_error cs i = Some c /\ in_chunk b c
          /\ forall i' c', nth_error cs i' = Some c' -> in_chunk b c' -> i' = i)
  /\ fst (last cs (0, 0)) = 0
  /\ final_top ws (parameter_widths j) = 0.
Proof.
  intros [Hne Hv] Hws cs.
  pose proof (parameter_hex_widths_length j ws Hws) as Hlen.
  pose proof (parameter_hex_widths_nonneg j ws Hv Hws) as Hnn.
  assert (Hlt : List.length ws = List.length (parameter_widths j))
    by (unfold parameter_widths; rewrite length_map; exact Hlen).
  assert (Ht : tiles 0 (total_width ws - 4) cs).
  { subst cs. rewrite generate_bit_slice_indices_eq, total_width_eq.
    replace (4 + sum_chunk_bits ws - 4) with (sum_chunk_bits ws) by lia.
    pose proof (tiles_slices_from ws (parameter_widths j) (sum_chunk_bits ws) Hlt Hnn) as H.
    fold (parameter_hex_bit_widths ws) in H.
    rewrite sum_chunk_bits_eq, Z.sub_diag in H. exact H. }
  assert (Hcl : List.length cs = List.length (parameters j)).
  { subst cs. rewrite chunks_length; [exact Hlen|].
    rewrite generate_bit_slice_indices_eq, slices_from_length, length_combine.
    unfold parameter_hex_bit_widths. rewrite length_map. lia. }
  split; [exact Hcl|]. split.
  { subst cs. rewrite generate_bit_slice_indices_eq.
    apply chunks_aligned, sum_chunk_bits_aligned. }
  repeat split.
  - exact Ht.
  - apply tiles_cover, Ht.
  - apply (tiles_last 0 (total_width ws - 4)); [exact Ht|].
    intros E. rewrite E in Hcl. simpl in Hcl.
    destruct (parameters j); [congruence | discriminate].
  - apply final_top_zero, Hlt.
Qed.

Lemma chunks_tile_vector_witness :
  valid_module_spec adder
  /\ parameter_hex_widths adder = Ok [2; 2; 3]
  /\ tiles 0 28 [(20, 28); (12, 20); (0, 12)]
  /\ final_top [2; 2; 3] (parameter_widths adder) = 0.
Proof.
  pose proof (chunks_tile_vector adder [2; 2; 3] adder_valid adder_hex_widths) as H.
  split; [exact adder_valid|]. split; [exact adder_hex_widths|].
  split; apply H.
Defined.

(** C4. Whenever the hex widths are computed, the width of the packed vector
    is 4 plus the chunk bits of all fields, the high index is the width
    minus one and the low index is 0; these are the indices of the vector
    range and of the enable slice in the printed text. *)
Theorem total_width_is_tag_plus_chunks (j : document) (ws : list Z) :
  parameter_hex_widths j = Ok ws ->
  Forall2 (fun p w => compute_field_bit_width_hex (idx_hi p) (idx_lo p) = Ok w)
          (parameters j) ws
  /\ total_width ws = 4 + sum_chunk_bits ws
  /\ vec_hi_idx (parameter_hex_bit_widths ws) = total_width ws - 1
  /\ vec_lo_idx = 0
  /\ forall text, main j = Ok text ->
       exists fp decls init stim,
         text = template_bench (module_name j) (generate_vector_format_str ws) fp
                  (total_width ws - 1) 0 decls init
                  (Py.join ", " (map name (parameters j)))
                  (enable_stimulate_block (total_width ws - 1)) stim
                  (codegen_output_check_expr (parameters j))
                ++ nl.
Proof.
  intros Hws. split; [apply parameter_hex_widths_spec, Hws|].
  split; [apply total_width_eq|].
  assert (Hhi : vec_hi_idx (parameter_hex_bit_widths ws) = total_width ws - 1)
    by (unfold total_width, vec_lo_idx; lia).
  repeat split; try assumption.
  intros text. unfold main. rewrite Hws. cbn [bind].
  destruct (codegen_initial_begin_decls (parameters j)) as [init|]; cbn [bind];
    try discriminate.
  destruct (codegen_dut_stimulate_block _ _) as [stim|]; cbn [bind];
    try discriminate.
  intros H. injection H as <-. rewrite Hhi.
  do 4 eexists. reflexivity.
Qed.

Lemma total_width_is_tag_plus_chunks_witness :
  parameter_hex_widths adder = Ok [2; 2; 3]
  /\ total_width [2; 2; 3] = 4 + sum_chunk_bits [2; 2; 3]
  /\ vec_hi_idx (parameter_hex_bit_widths [2; 2; 3]) = total_width [2; 2; 3] - 1.
Proof.
  pose proof (total_width_is_tag_plus_chunks adder [2; 2; 3] adder_hex_widths) as H.
  split; [exact adder_hex_widths|]. split; apply H.
Defined.

Lemma nth_error_combine_some {A B : Type} (a : list A) (b : list B) (i : nat) (x : A) (y : B) :
  nth_error a i = Some x -> nth_error b i = Some y ->
  nth_error (combine a b) i = Some (x, y).
Proof.
  revert b i. induction a as [|x' a IH]; intros [|y' b] [|i] Ha Hb;
    simpl in *; try discriminate.
  - congruence.
  - apply IH; assumption.
Qed.

Lemma slices_from_nth (l : list (Z * (Z * Z))) (top : Z) (i : nat) (h hi lo : Z) :
  nth_error l i = Some (h, (hi, lo)) ->
  nth_error (slices_from top l) i
  = Some (top - Py.sum (firstn (S i) (map fst l))
            + compute_field_bit_width hi lo - 1,
          top - Py.sum (firstn (S i) (map fst l))).
Proof.
  revert top i. induction l as [|[h' [hi' lo']] l IH]; intros top [|i] H;
    simpl in H; try discriminate.
  - injection H as -> -> ->. cbn [slices_from nth_error map firstn fst].
    rewrite sum_cons, sum_nil. do 2 f_equal; lia.
  - cbn [slices_from nth_error]. rewrite (IH _ _ H).
    cbn [map firstn fst]. rewrite (sum_cons h').
    do 2 f_equal; lia.
Qed.

Lemma chunks_nth (ws : list Z) (slices : list (Z * Z)) (i : nat) (w sh sl : Z) :
  nth_error ws i = Some w -> nth_error slices i = Some (sh, sl) ->
  nth_error (chunks ws slices) i = Some (sl, sl + chunk_bits w).
Proof.
  intros Hw Hs. unfold chunks.
  rewrite nth_error_map, (nth_error_combine_some _ _ _ _ _ Hw Hs). reflexivity.
Qed.

(** C10. The data slice of a field is as wide as the field and starts at the
    lowest bit of the field's chunk, which is the total of the chunk bits of
    the fields declared after it; every other bit of the chunk lies above
    the slice. *)
Theorem data_slice_at_chunk_bottom (j : document) (ws : list Z) (i : nat) (p : param) :
  parameter_hex_widths j = Ok ws ->
  nth_error (parameters j) i = Some p ->
  exists w sh sl,
    nth_error ws i = Some w
    /\ nth_error (generate_bit_slice_indices ws (parameter_widths j)) i = Some (sh, sl)
    /\ nth_error (chunks ws (generate_bit_slice_indices ws (parameter_widths j))) i
       = Some (sl, sl + chunk_bits w)
    /\ sh - sl + 1 = idx_hi p - idx_lo p + 1
    /\ sl = Py.sum (skipn (S i) (parameter_hex_bit_widths ws))
    /\ forall b, in_chunk b (sl, sl + chunk_bits w) -> ~ (sl <= b <= sh) -> sh < b.
Proof.
  intros Hws Hp.
  pose proof (parameter_hex_widths_length j ws Hws) as Hlen.
  destruct (nth_error ws i) as [w|] eqn:Hw.
  2:{ apply nth_error_None in Hw.
      assert (nth_error (parameters j) i <> None) by congruence.
      apply nth_error_Some in H. lia. }
  assert (Hb : nth_error (parameter_hex_bit_widths ws) i = Some (w * 4))
    by (unfold parameter_hex_bit_widths; rewrite nth_error_map, Hw; reflexivity).
  assert (Ht : nth_error (parameter_widths j) i = Some (idx_hi p, idx_lo p))
    by (unfold parameter_widths; rewrite nth_error_map, Hp; reflexivity).
  pose proof (nth_error_combine_some _ _ _ _ _ Hb Ht) as Hc.
  pose proof (slices_from_nth _ (sum_chunk_bits ws) _ _ _ _ Hc) as Hs.
  rewrite map_fst_combine in Hs
    by (unfold parameter_hex_bit_widths, parameter_widths; rewrite !length_map; exact Hlen).
  rewrite <- generate_bit_slice_indices_eq in Hs.
  assert (Hsl : sum_chunk_bits ws - Py.sum (firstn (S i) (parameter_hex_bit_widths ws))
                = Py.sum (skipn (S i) (parameter_hex_bit_widths ws))).
  { rewrite <- sum_chunk_bits_eq.
    rewrite (sum_firstn_skipn (S i) (parameter_hex_bit_widths ws)) at 1. lia. }
  rewrite Hsl in Hs.
  eexists w, _, _. split; [reflexivity|]. split; [exact Hs|].
  split; [apply (chunks_nth _ _ _ _ _ _ Hw Hs)|].
  split; [unfold compute_field_bit_width; lia|].
  split; [reflexivity|].
  intros b Hin Hn. unfold in_chunk in Hin. cbn [fst snd] in Hin. lia.
Qed.

Lemma data_slice_at_chunk_bottom_witness :
  parameter_hex_widths adder = Ok [2; 2; 3]
  /\ nth_error (parameters adder) 2 = Some (field "sum" "output" 8 0)
  /\ exists w sh sl,
       nth_error [2; 2; 3] 2 = Some w
       /\ nth_error (generate_bit_slice_indices [2; 2; 3] (parameter_widths adder)) 2
          = Some (sh, sl)
       /\ sh - sl + 1 = 9.
Proof.
  split; [exact adder_hex_widths|]. split; [reflexivity|].
  destruct (data_slice_at_chunk_bottom adder [2; 2; 3] 2
              (field "sum" "output" 8 0) adder_hex_widths eq_refl)
    as (w & sh & sl & Hw & Hs & _ & Hwd & _).
  exists w, sh, sl. repeat split; assumption.
Defined.

(** Within the range of exact doubles a chunk holds its field: the slice of
    a valid field stays inside the chunk, below the enable tag. *)
Lemma slices_from_bounds (l : list (Z * (Z * Z))) (top : Z) :
  Forall (fun '(h, (hi, lo)) => 1 <= compute_field_bit_width hi lo <= h) l ->
  Forall (fun '(sh, sl) => top - Py.sum (map fst l) <= sl <= sh /\ sh < top)
         (slices_from top l).
Proof.
  intros H. revert top. induction H as [|[h [hi lo]] l Hx Hl IH]; intros top;
    cbn [slices_from map fst]; constructor.
  - rewrite sum_cons.
    assert (0 <= Py.sum (map fst l)).
    { apply sum_nonneg, Forall_map. eapply Forall_impl; [|exact Hl].
      intros [h' [hi' lo']]. simpl. lia. }
    lia.
  - rewrite sum_cons. specialize (IH (top - h)).
    eapply Forall_impl; [|exact IH]. intros [sh sl]. lia.
Qed.

Lemma slices_within_vector (j : document) (ws : list Z) :
  valid_module_spec j ->
  Forall in_float_range (parameters j) ->
  parameter_hex_widths j = Ok ws ->
  Forall (fun '(sh, sl) => 0 <= sl <= sh /\ sh < total_width ws - 4)
         (generate_bit_slice_indices ws (parameter_widths j)).
Proof.
  intros [_ Hv] Hr Hws.
  rewrite parameter_hex_widths_in_range in Hws by exact Hr.
  injection Hws as <-.
  rewrite generate_bit_slice_indices_eq, total_width_eq.
  set (ws := map _ (parameters j)).
  pose proof (slices_from_bounds
                (combine (parameter_hex_bit_widths ws) (parameter_widths j))
                (sum_chunk_bits ws)) as H.
  rewrite map_fst_combine, sum_chunk_bits_eq, Z.sub_diag in H
    by (unfold parameter_hex_bit_widths, parameter_widths, ws; rewrite !length_map; reflexivity).
  eapply Forall_impl; [|apply H].
  - intros [sh sl]. lia.
  - unfold ws, parameter_hex_bit_widths, parameter_widths. clear H ws Hr.
    induction Hv as [|p ps Hp _ IH]; cbn [map combine]; constructor; [|exact IH].
    unfold valid_param in Hp. unfold compute_field_bit_width in *.
    pose proof (cdiv_4_bounds (idx_hi p + 1 - idx_lo p)). lia.
Qed.

(** ** Where floats give way *)

(** C5 at a field of 2^53 + 1 bits: the raw width is right, but the double
    nearest to it is 2^53, so the hex width comes out as 2^51 where the
    ceiling of a quarter of the width is 2^51 + 1; the chunk is one bit
    short of the field. Beyond the largest double no width is returned. *)
Theorem hex_width_loses_a_digit :
  compute_field_bit_width (2 ^ 53) 0 = 2 ^ 53 + 1
  /\ compute_field_bit_width_hex (2 ^ 53) 0 = Ok (2 ^ 51)
  /\ cdiv (compute_field_bit_width (2 ^ 53) 0) 4 = 2 ^ 51 + 1
  /\ chunk_bits (2 ^ 51) < compute_field_bit_width (2 ^ 53) 0
  /\ compute_field_bit_width_hex (2 ^ 1024) 0 = Err OverflowError.
Proof. repeat split; vm_compute; reflexivity. Qed.

(** C3 at the same field: the description is valid, yet the data slice is
    [2^53 : 0] in a vector whose enable tag starts at bit
    [total_width - 4 = 2^53]; the slice reaches into the tag. *)
Theorem slice_reaches_enable_tag :
  valid_module_spec wide
  /\ parameter_hex_widths wide = Ok [2 ^ 51]
  /\ generate_bit_slice_indices [2 ^ 51] (parameter_widths wide) = [(2 ^ 53, 0)]
  /\ total_width [2 ^ 51] - 4 = 2 ^ 53
  /\ (vec_hi_idx (parameter_hex_bit_widths [2 ^ 51]) - 3 = 2 ^ 53
      /\ exists text, main wide = Ok text).
Proof.
  split.
  { split; [discriminate|]. repeat constructor; unfold valid_param; simpl; lia. }
  repeat split; try (vm_compute; reflexivity).
  destruct (main wide) as [text|] eqn:H; [exists text; reflexivity|].
  vm_compute in H. discriminate.
Qed.

(** ** Strings *)

Lemma append_assoc (a b c : string) : (a ++ b) ++ c = a ++ (b ++ c).
Proof. induction a as [|x a IH]; simpl; [reflexivity | now rewrite IH]. Qed.

Lemma append_nil_r (a : string) : a ++ EmptyString = a.
Proof. induction a as [|x a IH]; simpl; [reflexivity | now rewrite IH]. Qed.

Lemma count_char_app (c : ascii) (a b : string) :
  count_char c (a ++ b) = (count_char c a + count_char c b)%nat.
Proof. induction a as [|x a IH]; simpl; [reflexivity | rewrite IH; lia]. Qed.

(** The decimal form of an integer is made of digits and at most a sign. *)
Lemma count_char_uint (c : ascii) (d : Decimal.uint) :
  decimal_char c = false -> count_char c (NilEmpty.string_of_uint d) = 0%nat.
Proof.
  unfold decimal_char. intros H. apply orb_false_elim in H as [_ H].
  cbn [existsb] in H.
  repeat (apply orb_false_elim in H as [? H]).
  induction d as [|d IH|d IH|d IH|d IH|d IH|d IH|d IH|d IH|d IH|d IH];
    cbn [NilEmpty.string_of_uint count_char]; [reflexivity|..];
    rewrite IH, Ascii.eqb_sym;
    match goal with E : Ascii.eqb c ?x = false |- context [Ascii.eqb c ?x] =>
      rewrite E end; reflexivity.
Qed.

Lemma count_char_str (c : ascii) (n : Z) :
  decimal_char c = false -> count_char c (Py.str n) = 0%nat.
Proof.
  intros H. pose proof (count_char_uint c) as Hu.
  assert (Hz : forall d, count_char c (NilZero.string_of_uint d) = 0%nat).
  { intros d. destruct d; try apply (Hu _ H).
    unfold decimal_char in H. apply orb_false_elim in H as [_ H].
    cbn [existsb] in H. apply orb_false_elim in H as [H _].
    cbn [NilZero.string_of_uint count_char]. rewrite Ascii.eqb_sym, H. reflexivity. }
  unfold Py.str, NilZero.string_of_int.
  destruct (Z.to_int n) as [d|d]; [apply Hz|].
  cbn [count_char]. rewrite Hz.
  unfold decimal_char in H. apply orb_false_elim in H as [H _].
  rewrite Ascii.eqb_sym. destruct (Ascii.eqb c "-"); [discriminate | reflexivity].
Qed.

(** ** The format string *)

Lemma fold_format_str (ws : list Z) (acc : string) :
  fold_left (fun out length => out ++ "_%0" ++ Py.str length ++ "h") ws acc
  = acc ++ specifiers ws.
Proof.
  revert acc. induction ws as [|w ws IH]; intros acc; simpl.
  - symmetry. apply append_nil_r.
  - rewrite IH, append_assoc. reflexivity.
Qed.

Lemma count_specifiers (c : ascii) (ws : list Z) :
  decimal_char c = false ->
  (count_char c "_%0" + count_char c "h" = 1)%nat ->
  count_char c (specifiers ws) = List.length ws.
Proof.
  intros Hd H1. induction ws as [|w ws IH]; [reflexivity|].
  cbn [specifiers List.length]. unfold field_specifier.
  rewrite !count_char_app, IH, (count_char_str c w Hd). lia.
Qed.

(** C6. Whenever the hex widths are computed, the format string is ["%1h"]
    followed, field by field in declaration order, by ["_%0"], the decimal
    hex width of the field and ["h"]; it holds one conversion per field and
    one for the enable tag. *)
Theorem format_str_specifiers (j : document) (ws : list Z) :
  parameter_hex_widths j = Ok ws ->
  Forall2 (fun p w => compute_field_bit_width_hex (idx_hi p) (idx_lo p) = Ok w)
          (parameters j) ws
  /\ generate_vector_format_str ws = "%1h" ++ specifiers ws
  /\ count_char "%" (generate_vector_format_str ws) = S (List.length (parameters j))
  /\ count_char "h" (generate_vector_format_str ws) = S (List.length (parameters j)).
Proof.
  intros Hws.
  pose proof (parameter_hex_widths_length j ws Hws) as Hlen.
  assert (Heq : generate_vector_format_str ws = "%1h" ++ specifiers ws)
    by apply fold_format_str.
  split; [apply parameter_hex_widths_spec, Hws|]. split; [exact Heq|].
  rewrite Heq, !count_char_app, !count_specifiers, Hlen by reflexivity.
  split; reflexivity.
Qed.

Lemma format_str_specifiers_witness :
  parameter_hex_widths adder = Ok [2; 2; 3]
  /\ generate_vector_format_str [2; 2; 3] = "%1h" ++ specifiers [2; 2; 3]
  /\ count_char "%" (generate_vector_format_str [2; 2; 3]) = 4%nat.
Proof.
  pose proof (format_str_specifiers adder [2; 2; 3] adder_hex_widths) as H.
  split; [exact adder_hex_widths|]. split; apply H.
Defined.

(** ** The mismatch expression *)

Lemma output_check_started (l : list param) (out : string) (i : Z) :
  0 < i ->
  fst (fold_left output_check_step l (out, i)) = out ++ after_first_output l.
Proof.
  revert out i. induction l as [|v l IH]; intros out i Hi; cbn [fold_left].
  - symmetry. apply append_nil_r.
  - unfold output_check_step at 2.
    assert (Hpos : (0 <? i) = true) by (apply Z.ltb_lt; exact Hi).
    rewrite Hpos. cbn [after_first_output]. unfold is_output, disjunct.
    destruct (String.eqb (io_type v) "output").
    + rewrite IH by lia. now rewrite !append_assoc.
    + rewrite IH by lia. now rewrite !append_assoc.
Qed.

(** What the loop computes: nothing for the fields before the first output,
    the disjunct of the first output, then a separator for every further
    field, output or not. *)
Lemma codegen_output_check_expr_shape (ins rest : list param) (o : param) :
  Forall (fun v => is_output v = false) ins ->
  is_output o = true ->
  codegen_output_check_expr (ins ++ o :: rest)%list
  = disjunct o ++ after_first_output rest.
Proof.
  intros Hins Ho. unfold codegen_output_check_expr.
  rewrite fold_left_app.
  assert (Hskip : fold_left output_check_step ins (EmptyString, 0) = (EmptyString, 0)).
  { induction Hins as [|v ins Hv _ IH]; [reflexivity|].
    cbn [fold_left]. unfold output_check_step at 2. unfold is_output in Hv.
    rewrite Hv. exact IH. }
  rewrite Hskip. cbn [fold_left]. unfold output_check_step at 2.
  unfold is_output in Ho. rewrite Ho. cbn [Z.ltb Z.compare].
  rewrite output_check_started by lia. reflexivity.
Qed.

Lemma join_cons (sep x : string) (xs : list string) :
  Py.join sep (x :: xs) = x ++ fold_right (fun y acc => sep ++ y ++ acc) EmptyString xs.
Proof.
  unfold Py.join. revert x. induction xs as [|y xs IH]; intros x.
  - simpl. symmetry. apply append_nil_r.
  - change (String.concat sep (x :: y :: xs))
      with (x ++ sep ++ String.concat sep (y :: xs)).
    rewrite IH. cbn [fold_right]. reflexivity.
Qed.

(** With every input declared before every output the expression is the
    chain of disjuncts. *)
Lemma codegen_output_check_expr_inputs_first (ins outs : list param) :
  Forall (fun v => is_output v = false) ins ->
  Forall (fun v => is_output v = true) outs ->
  codegen_output_check_expr (ins ++ outs)%list = Py.join " || " (map disjunct outs).
Proof.
  intros Hins Houts. destruct Houts as [|o outs Ho Houts].
  - rewrite app_nil_r. unfold codegen_output_check_expr.
    induction Hins as [|v ins Hv _ IH]; [reflexivity|].
    cbn [fold_left]. unfold output_check_step at 2. unfold is_output in Hv.
    rewrite Hv. exact IH.
  - rewrite codegen_output_check_expr_shape by assumption.
    cbn [map]. rewrite join_cons. f_equal.
    induction Houts as [|v outs Hv _ IH]; [reflexivity|].
    cbn [after_first_output map fold_right]. rewrite Hv, IH. reflexivity.
Qed.

(** C7 where an input follows an output: every field after the first output
    adds a separator, so the expression ends in a dangling [||] or has two in
    a row; the chain of disjuncts it should be is shown beside it. *)
Theorem output_check_expr_stray_separator :
  codegen_output_check_expr output_first = "y != y_e || "
  /\ Py.join " || " (map disjunct (filter is_output output_first)) = "y != y_e"
  /\ codegen_output_check_expr output_input_output = "x != x_e ||  || y != y_e"
  /\ Py.join " || " (map disjunct (filter is_output output_input_output))
     = "x != x_e || y != y_e".
Proof. repeat split; reflexivity. Qed.

(** ** Rejection *)

Lemma max_nonempty (l : list Z) : l <> [] -> exists m, Py.max l = Ok m.
Proof. destruct l as [|x l]; [congruence|]. intros _. eexists. reflexivity. Qed.

Lemma main_without_fields (j : document) :
  parameters j = [] -> main j = Err ValueError.
Proof.
  intros H. unfold main, parameter_hex_widths, parameter_widths.
  rewrite H. reflexivity.
Qed.

Lemma main_with_fields (j : document) :
  Forall in_float_range (parameters j) ->
  parameters j <> [] -> exists text, main j = Ok text.
Proof.
  intros Hr Hne. unfold main.
  rewrite (parameter_hex_widths_in_range j Hr). cbn [bind].
  assert (Hm : map (fun v => Py.len (name v)) (parameters j) <> []).
  { destruct (parameters j); [congruence | discriminate]. }
  destruct (max_nonempty _ Hm) as [m Hmax].
  unfold codegen_initial_begin_decls, codegen_dut_stimulate_block.
  rewrite Hmax. cbn [bind]. eexists. reflexivity.
Qed.

(** C8, as the code has it. A description without fields ends in the
    [ValueError] of [max] on an empty sequence, before anything is printed.
    A description with fields is printed whatever the order of the indices
    of a field, as long as every raw width is within the exact doubles. *)
Theorem generation_fails_only_without_fields (j : document) :
  Forall in_float_range (parameters j) ->
  (parameters j = [] -> main j = Err ValueError)
  /\ (parameters j <> [] -> exists text, main j = Ok text)
  /\ (forall p, In p (parameters j) -> idx_hi p < idx_lo p ->
        exists text, main j = Ok text).
Proof.
  intros Hr. split; [apply main_without_fields|].
  split; [apply main_with_fields, Hr|].
  intros p Hin _. apply main_with_fields; [exact Hr|].
  intros E. rewrite E in Hin. exact Hin.
Qed.

Lemma reversed_in_range : Forall in_float_range (parameters reversed).
Proof.
  constructor; [|constructor].
  unfold in_float_range, compute_field_bit_width. simpl. lia.
Qed.

Lemma generation_fails_only_without_fields_witness :
  Forall in_float_range (parameters reversed)
  /\ exists text, main reversed = Ok text.
Proof.
  split; [exact reversed_in_range|].
  destruct (generation_fails_only_without_fields reversed reversed_in_range)
    as (_ & _ & H).
  apply (H (field "a" "input" 3 5)); [left; reflexivity | simpl; lia].
Defined.

(** C8 as stated fails: the only field of [reversed] has its high index
    below its low index, and the testbench is printed all the same. *)
Lemma reversed_field_is_not_rejected :
  (exists p, In p (parameters reversed) /\ idx_hi p < idx_lo p)
  /\ (exists text, main reversed = Ok text)
  /\ ~ (exists e, main reversed = Err e).
Proof.
  split.
  { exists (field "a" "input" 3 5). split; [left; reflexivity | simpl; lia]. }
  assert (H : exists text, main reversed = Ok text)
    by (apply main_with_fields; [exact reversed_in_range | discriminate]).
  split; [exact H|].
  destruct H as [text H]. intros [e He]. congruence.
Qed.

(** * Further properties of the utility functions *)

(** ** [round_to_8] with a power of two as base *)

Lemma digits2_pos_log2 (p : positive) :
  Zpos (digits2_pos p) = Z.log2 (Zpos p) + 1.
Proof.
  rewrite digits2_pos_size. destruct p as [p|p|]; simpl; lia.
Qed.

Lemma pow2_mantissa (M : positive) (n : Z) :
  0 <= n -> Zpos M = 2 ^ n -> Zpos (digits2_pos M) = 53 ->
  n = 52 /\ M = 4503599627370496%positive.
Proof.
  intros Hn Hv Hd. rewrite digits2_pos_log2, Hv, Z.log2_pow2 in Hd by exact Hn.
  assert (n = 52) by lia. subst n. split; [reflexivity|].
  change (2 ^ 52) with (Zpos 4503599627370496) in Hv. congruence.
Qed.

(** The double of [2^k]: mantissa [2^52], exponent [k - 52]. *)
Lemma of_int_pow2 (k : Z) :
  0 <= k <= 52 ->
  Float.of_int (2 ^ k) = Ok (S754_finite false 4503599627370496 (k - 52)).
Proof.
  intros Hk.
  assert (Hpos : 0 < 2 ^ k) by (apply Z.pow_pos_nonneg; lia).
  assert (Hlt : 2 ^ k < 2 ^ 53) by (apply Z.pow_lt_mono_r; lia).
  destruct (2 ^ k) as [|p|p] eqn:Hp; try lia.
  destruct (binary_round_exact false p Hlt) as (M & k' & Hr & Hk' & Hv & Hd).
  rewrite <- Hp, <- Z.pow_add_r in Hv by lia.
  destruct (pow2_mantissa M (k + k') ltac:(lia) Hv Hd) as [Hsum ->].
  unfold Float.of_int. cbn [binary_normalize].
  unfold Float.prec, Float.emax in Hr. unfold Float.prec, Float.emax.
  rewrite Hr. do 2 f_equal. lia.
Qed.

(** Dividing a normal number by a power of two only lowers the exponent. *)
Lemma SFdiv_pow2 (s : bool) (M : positive) (e e2 : Z) :
  Zpos (digits2_pos M) = 53 -> -900 <= e <= 900 -> -100 <= e2 <= 0 ->
  SFdiv Float.prec Float.emax (S754_finite s M e)
        (S754_finite false 4503599627370496 e2)
  = S754_finite s M (e - e2 - 52).
Proof.
  intros Hd He He2. unfold SFdiv, SFdiv_core_binary.
  cbn [Zdigits2]. rewrite Hd. change (Zpos (digits2_pos 4503599627370496)) with 53.
  replace (53 + e - (53 + e2)) with (e - e2) by lia.
  rewrite fexp_small by lia.
  rewrite Z.min_l by lia.
  replace (e - e2 - (e - e2 - 53)) with 53 by lia.
  rewrite Z.shiftl_mul_pow2 by lia.
  assert (Hq : Z.div_eucl (Zpos M * 2 ^ 53) 4503599627370496 = (Zpos M~0, 0)).
  { pose proof (Z.div_eucl_eq (Zpos M * 2 ^ 53) 4503599627370496 ltac:(lia)) as Heq.
    pose proof (Z.mod_pos_bound (Zpos M * 2 ^ 53) 4503599627370496 ltac:(lia)) as Hb.
    unfold Z.modulo in Hb.
    destruct (Z.div_eucl (Zpos M * 2 ^ 53) 4503599627370496) as [q r].
    change (2 ^ 53) with 9007199254740992 in *.
    f_equal; lia. }
  rewrite Hq.
  change (new_location 4503599627370496 0) with loc_Exact.
  rewrite Bool.xorb_false_r.
  unfold binary_round_aux, shr_fexp. cbn [Zdigits2 digits2_pos].
  rewrite Pos2Z.inj_succ, Hd.
  replace (Z.succ 53 + (e - e2 - 53)) with (e - e2 + 1) by lia.
  rewrite fexp_small by lia.
  replace (e - e2 + 1 - 53 - (e - e2 - 53)) with 1 by lia.
  cbn [shr shr_record_of_loc iter_pos shr_1 orb]. cbv beta iota.
  cbn [shr_m loc_of_shr_record round_nearest_even Zdigits2].
  rewrite Hd.
  replace (53 + (e - e2 - 53 + 1)) with (e - e2 + 1) by lia.
  rewrite fexp_small by lia.
  replace (e - e2 + 1 - 53 - (e - e2 - 53 + 1)) with 0 by lia.
  cbn [shr shr_record_of_loc shr_m].
  replace (e - e2 - 53 + 1) with (e - e2 - 52) by lia.
  assert (Hle : (e - e2 - 52 <=? Float.emax - Float.prec) = true)
    by (apply Z.leb_le; unfold Float.emax, Float.prec; lia).
  rewrite Hle. reflexivity.
Qed.

(** The ceiling of a float with a non-positive exponent. *)
Lemma ceil_finite (s : bool) (M : positive) (e : Z) :
  e <= 0 ->
  Float.ceil (S754_finite s M e) = Ok (cdiv (cond_Zopp s (Zpos M)) (2 ^ (- e))).
Proof.
  intros He. cbn [Float.ceil]. f_equal. unfold cdiv.
  destruct (0 <=? e) eqn:H0; [|reflexivity].
  apply Z.leb_le in H0. assert (e = 0) by lia. subst e.
  change (2 ^ (- 0)) with 1. change (2 ^ 0) with 1.
  rewrite Z.div_1_r. lia.
Qed.

Lemma cdiv_scale_pow2 (a k n : Z) :
  0 <= k -> 0 <= n -> cdiv (a * 2 ^ k) (2 ^ (k + n)) = cdiv a (2 ^ n).
Proof.
  intros Hk Hn. unfold cdiv. f_equal.
  rewrite Z.pow_add_r by lia.
  rewrite <- Z.mul_opp_l, (Z.mul_comm (2 ^ k) (2 ^ n)).
  apply Z.div_mul_cancel_r; apply Z.pow_nonzero; lia.
Qed.

Lemma round_to_8_pow2_signed (s : bool) (m : positive) (k : Z) :
  Zpos m < 2 ^ 53 -> 0 <= k <= 52 ->
  round_to_8 (cond_Zopp s (Zpos m)) (2 ^ k)
  = Ok (2 ^ k * cdiv (cond_Zopp s (Zpos m)) (2 ^ k)).
Proof.
  intros Hm Hk.
  destruct (binary_round_exact s m Hm) as (M & k' & Hr & Hk' & Hv & Hd).
  unfold round_to_8, Float.of_int at 1.
  assert (Hn : binary_normalize Float.prec Float.emax (cond_Zopp s (Zpos m)) 0 false
               = S754_finite s M (- k')).
  { destruct s; simpl; exact Hr. }
  rewrite Hn. cbn [bind]. unfold Float.truediv.
  rewrite of_int_pow2 by exact Hk. cbn [bind Float.is_zero].
  rewrite SFdiv_pow2 by lia. cbn [bind].
  rewrite ceil_finite by lia. cbn [bind]. do 2 f_equal.
  replace (- (- k' - (k - 52) - 52)) with (k' + k) by lia.
  replace (cond_Zopp s (Zpos M)) with (cond_Zopp s (Zpos m) * 2 ^ k')
    by (destruct s; simpl cond_Zopp; lia).
  apply cdiv_scale_pow2; lia.
Qed.

Lemma cdiv_bounds (x d : Z) : 0 < d -> x <= d * cdiv x d < x + d.
Proof.
  intros Hd. unfold cdiv.
  pose proof (Z.div_mod (- x) d ltac:(lia)) as H1.
  pose proof (Z.mod_pos_bound (- x) d Hd) as H2.
  nia.
Qed.

Lemma cdiv_le_mono (x y d : Z) : 0 < d -> x <= y -> cdiv x d <= cdiv y d.
Proof.
  intros Hd Hxy. unfold cdiv.
  pose proof (Z.div_le_mono (- y) (- x) d Hd ltac:(lia)). lia.
Qed.

Lemma cdiv_multiple (n d : Z) : 0 < d -> cdiv (d * n) d = n.
Proof.
  intros Hd. unfold cdiv.
  replace (- (d * n)) with ((- n) * d) by ring.
  rewrite Z.div_mul by lia. lia.
Qed.

(** X1. With a power of two up to [2^52] as base, which includes the default
    8 and the 4 of the hex widths, and [|x| < 2^53], [round_to_8] returns the
    least multiple of the base that is not below [x]. *)
Theorem round_to_8_power_of_two_base (x k : Z) :
  - 2 ^ 53 < x < 2 ^ 53 -> 0 <= k <= 52 ->
  exists r, round_to_8 x (2 ^ k) = Ok r
    /\ r = 2 ^ k * cdiv x (2 ^ k)
    /\ (2 ^ k | r)
    /\ x <= r < x + 2 ^ k.
Proof.
  intros Hx Hk.
  assert (Hpos : 0 < 2 ^ k) by (apply Z.pow_pos_nonneg; lia).
  exists (2 ^ k * cdiv x (2 ^ k)).
  split; [|split; [reflexivity | split; [apply Z.divide_factor_l | apply cdiv_bounds, Hpos]]].
  destruct x as [|m|m].
  - unfold round_to_8. cbn [Float.of_int binary_normalize bind].
    unfold Float.truediv. rewrite of_int_pow2 by exact Hk.
    cbn [bind Float.is_zero SFdiv Float.ceil xorb].
    unfold cdiv. rewrite Z.opp_0, Z.div_0_l by lia. reflexivity.
  - apply (round_to_8_pow2_signed false m k); lia.
  - apply (round_to_8_pow2_signed true m k); lia.
Qed.

Lemma round_to_8_power_of_two_base_witness :
  - 2 ^ 53 < 13 < 2 ^ 53 /\ 0 <= 3 <= 52
  /\ exists r, round_to_8 13 (2 ^ 3) = Ok r /\ r = 2 ^ 3 * cdiv 13 (2 ^ 3).
Proof.
  assert (Hx : - 2 ^ 53 < 13 < 2 ^ 53) by (split; reflexivity).
  assert (Hk : 0 <= 3 <= 52) by lia.
  split; [exact Hx|]. split; [exact Hk|].
  destruct (round_to_8_power_of_two_base 13 3 Hx Hk) as (r & Hr & Hv & _).
  exists r. split; assumption.
Defined.

(** X2. Rounding is idempotent: what [round_to_8 x 4] returns for
    [|x| <= 2^53] is returned unchanged when rounded again. *)
Theorem round_to_8_idempotent (x r : Z) :
  - 2 ^ 53 <= x <= 2 ^ 53 ->
  round_to_8 x 4 = Ok r -> round_to_8 r 4 = Ok r.
Proof.
  intros Hx Hr. rewrite round_to_8_exact in Hr by exact Hx.
  assert (Hv : r = 4 * cdiv x 4) by congruence.
  pose proof (cdiv_bounds x 4 ltac:(lia)) as Hb.
  assert (Hup : r <= 2 ^ 53).
  { change (2 ^ 53) with (4 * 2251799813685248) in *.
    pose proof (cdiv_le_mono x (4 * 2251799813685248) 4 ltac:(lia) ltac:(lia)) as Hm.
    rewrite cdiv_multiple in Hm by lia. lia. }
  rewrite round_to_8_exact by lia. subst r.
  rewrite cdiv_multiple by lia. reflexivity.
Qed.

Lemma round_to_8_idempotent_witness :
  - 2 ^ 53 <= 9 <= 2 ^ 53 /\ round_to_8 9 4 = Ok 12 /\ round_to_8 12 4 = Ok 12.
Proof.
  assert (Hx : - 2 ^ 53 <= 9 <= 2 ^ 53) by (split; discriminate).
  split; [exact Hx|]. split; [reflexivity|].
  exact (round_to_8_idempotent 9 12 Hx eq_refl).
Defined.

(** X3. Rounding is monotone on [-2^53, 2^53]: a larger argument never gets
    a smaller multiple of four. *)
Theorem round_to_8_monotone (x y rx ry : Z) :
  - 2 ^ 53 <= x -> x <= y -> y <= 2 ^ 53 ->
  round_to_8 x 4 = Ok rx -> round_to_8 y 4 = Ok ry -> rx <= ry.
Proof.
  intros Hx Hxy Hy Hrx Hry.
  rewrite round_to_8_exact in Hrx, Hry by lia.
  assert (rx = 4 * cdiv x 4) by congruence.
  assert (ry = 4 * cdiv y 4) by congruence.
  pose proof (cdiv_le_mono x y 4 ltac:(lia) Hxy). lia.
Qed.

Lemma round_to_8_monotone_witness :
  - 2 ^ 53 <= 5 /\ 5 <= 9 /\ 9 <= 2 ^ 53
  /\ round_to_8 5 4 = Ok 8 /\ round_to_8 9 4 = Ok 12 /\ 8 <= 12.
Proof.
  assert (H1 : - 2 ^ 53 <= 5) by discriminate.
  assert (H2 : 5 <= 9) by discriminate.
  assert (H3 : 9 <= 2 ^ 53) by discriminate.
  repeat (split; [first [assumption | reflexivity]|]).
  exact (round_to_8_monotone 5 9 8 12 H1 H2 H3 eq_refl eq_refl).
Defined.

(** X4. A base of 0 never yields a value: the division raises
    [ZeroDivisionError] whenever [x] converts to a double, which it does for
    [|x| < 2^53], and otherwise the conversion has already raised
    [OverflowError]. *)
Theorem round_to_8_base_zero (x : Z) :
  (round_to_8 x 0 = Err ZeroDivisionError \/ round_to_8 x 0 = Err OverflowError)
  /\ (- 2 ^ 53 < x < 2 ^ 53 -> round_to_8 x 0 = Err ZeroDivisionError).
Proof.
  assert (Hz : forall f, Float.of_int x = Ok f -> round_to_8 x 0 = Err ZeroDivisionError).
  { intros f Hf. unfold round_to_8. rewrite Hf. reflexivity. }
  split.
  - destruct (Float.of_int x) as [f|e] eqn:Hf; [left; eapply Hz; reflexivity|].
    right. unfold round_to_8. rewrite Hf. cbn [bind].
    unfold Float.of_int in Hf.
    destruct (binary_normalize _ _ x 0 false); congruence.
  - intros Hx. destruct x as [|m|m].
    + reflexivity.
    + destruct (binary_round_exact false m ltac:(lia)) as (M & k & Hr & _).
      apply (Hz (S754_finite false M (- k))).
      unfold Float.of_int. cbn [binary_normalize].
      unfold Float.prec, Float.emax in *. rewrite Hr. reflexivity.
    + destruct (binary_round_exact true m ltac:(lia)) as (M & k & Hr & _).
      apply (Hz (S754_finite true M (- k))).
      unfold Float.of_int. cbn [binary_normalize].
      unfold Float.prec, Float.emax in *. rewrite Hr. reflexivity.
Qed.

Lemma round_to_8_base_zero_witness :
  - 2 ^ 53 < 5 < 2 ^ 53 /\ round_to_8 5 0 = Err ZeroDivisionError.
Proof.
  assert (Hx : - 2 ^ 53 < 5 < 2 ^ 53) by (split; reflexivity).
  split; [exact Hx|]. exact (proj2 (round_to_8_base_zero 5) Hx).
Defined.

(** ** Hex widths within the exact doubles *)

(** X5. For a field with [idx_lo <= idx_hi] of at most 2^53 bits the hex
    width is the least number of hex digits that hold the field: at least
    one, enough for the width, and one fewer would not be enough. *)
Theorem hex_width_is_least_in_range (hi lo : Z) :
  lo <= hi -> compute_field_bit_width hi lo <= 2 ^ 53 ->
  exists n, compute_field_bit_width_hex hi lo = Ok n
    /\ 1 <= n
    /\ compute_field_bit_width hi lo <= n * 4
    /\ (n - 1) * 4 < compute_field_bit_width hi lo.
Proof.
  intros Hle Hw.
  assert (Hr : - 2 ^ 53 <= compute_field_bit_width hi lo <= 2 ^ 53)
    by (unfold compute_field_bit_width in *; lia).
  exists (cdiv (compute_field_bit_width hi lo) 4).
  split; [apply compute_field_bit_width_hex_exact, Hr|].
  pose proof (cdiv_bounds (compute_field_bit_width hi lo) 4 ltac:(lia)).
  unfold compute_field_bit_width in *. lia.
Qed.

Lemma hex_width_is_least_in_range_witness :
  0 <= 8 /\ compute_field_bit_width 8 0 <= 2 ^ 53
  /\ exists n, compute_field_bit_width_hex 8 0 = Ok n /\ 1 <= n.
Proof.
  assert (H1 : 0 <= 8) by discriminate.
  assert (H2 : compute_field_bit_width 8 0 <= 2 ^ 53) by discriminate.
  split; [exact H1|]. split; [exact H2|].
  destruct (hex_width_is_least_in_range 8 0 H1 H2) as (n & Hn & Hge & _).
  exists n. split; assumption.
Defined.

(** X6. Indices the wrong way round are not refused: a field whose high
    index is one to four below its low index gets zero hex digits, and one
    further below gets a negative number of them. *)
Theorem hex_width_of_reversed_indices (hi lo : Z) :
  hi < lo -> - 2 ^ 53 <= compute_field_bit_width hi lo ->
  exists n, compute_field_bit_width_hex hi lo = Ok n
    /\ n <= 0
    /\ (lo - 4 <= hi -> n = 0)
    /\ (hi < lo - 4 -> n < 0).
Proof.
  intros Hlt Hw.
  assert (Hr : - 2 ^ 53 <= compute_field_bit_width hi lo <= 2 ^ 53).
  { split; [exact Hw|]. unfold compute_field_bit_width.
    assert (0 <= 2 ^ 53) by (apply Z.pow_nonneg; lia). lia. }
  exists (cdiv (compute_field_bit_width hi lo) 4).
  split; [apply compute_field_bit_width_hex_exact, Hr|].
  pose proof (cdiv_bounds (compute_field_bit_width hi lo) 4 ltac:(lia)).
  unfold compute_field_bit_width in *. lia.
Qed.

Lemma hex_width_of_reversed_indices_witness :
  3 < 5 /\ - 2 ^ 53 <= compute_field_bit_width 3 5
  /\ exists n, compute_field_bit_width_hex 3 5 = Ok n /\ n <= 0.
Proof.
  assert (H1 : 3 < 5) by reflexivity.
  assert (H2 : - 2 ^ 53 <= compute_field_bit_width 3 5) by discriminate.
  split; [exact H1|]. split; [exact H2|].
  destruct (hex_width_of_reversed_indices 3 5 H1 H2) as (n & Hn & Hle & _).
  exists n. split; assumption.
Defined.

(** ** The layout loop on lists of any length *)

Lemma map_fst_combine_firstn {A B : Type} (a : list A) (b : list B) :
  map fst (combine a b) = firstn (List.length b) a.
Proof.
  revert b. induction a as [|x a IH]; intros [|y b]; simpl; try reflexivity.
  f_equal. apply IH.
Qed.

(** X7. [zip] stops at the shorter list: there are as many slices as the
    shorter of the two arguments has elements, and the cursor [top] ends at
    the chunk bits of the hex widths that were given no index pair, which is
    0 exactly when none is left over. *)
Theorem bit_slices_zip_truncates (ws : list Z) (tuples : list (Z * Z)) :
  List.length (generate_bit_slice_indices ws tuples)
  = Nat.min (List.length ws) (List.length tuples)
  /\ final_top ws tuples
     = Py.sum (skipn (List.length tuples) (map (fun x => x * 4) ws)).
Proof.
  unfold generate_bit_slice_indices, final_top. rewrite bit_slice_loop_eq.
  cbn [fst snd]. split.
  - rewrite slices_from_length, length_combine, length_map. reflexivity.
  - rewrite map_fst_combine_firstn.
    rewrite (sum_firstn_skipn (List.length tuples) (map (fun x => x * 4) ws)) at 1.
    lia.
Qed.

(** ** Data slices within the exact doubles *)

Lemma chunks_hold_fields (ps : list param) :
  Forall valid_param ps ->
  Forall (fun '(h, (hi, lo)) => 1 <= compute_field_bit_width hi lo <= h)
    (combine
       (parameter_hex_bit_widths
          (map (fun p => cdiv (compute_field_bit_width (idx_hi p) (idx_lo p)) 4) ps))
       (map (fun x => (idx_hi x, idx_lo x)) ps)).
Proof.
  unfold parameter_hex_bit_widths.
  induction 1 as [|p ps Hp _ IH]; cbn [map combine]; constructor; [|exact IH].
  unfold valid_param in Hp. unfold compute_field_bit_width in *.
  pose proof (cdiv_4_bounds (idx_hi p + 1 - idx_lo p)). lia.
Qed.

Lemma slices_from_descending (l : list (Z * (Z * Z))) (top : Z) :
  Forall (fun '(h, (hi, lo)) => 1 <= compute_field_bit_width hi lo <= h) l ->
  forall (i k : nat) (si sk : Z * Z),
    (i < k)%nat ->
    nth_error (slices_from top l) i = Some si ->
    nth_error (slices_from top l) k = Some sk ->
    fst sk < snd si.
Proof.
  intros H. revert top. induction H as [|[h [hi lo]] l Hx Hl IH];
    intros top i k si sk Hik Hi Hk; cbn [slices_from] in *.
  - destruct i; discriminate.
  - destruct k as [|k]; [lia|]. cbn [nth_error] in Hk.
    destruct i as [|i]; cbn [nth_error] in Hi.
    + injection Hi as <-. cbn [snd].
      pose proof (slices_from_bounds l (top - h) Hl) as Hb.
      rewrite Forall_forall in Hb. apply nth_error_In in Hk.
      specialize (Hb sk Hk). destruct sk as [sh sl]. cbn [fst]. lia.
    + apply (IH (top - h) i k); [lia | assumption | assumption].
Qed.

(** X8. For a valid description with fields of at most 2^53 bits the hex
    widths are computed and every data slice lies within the field chunks:
    [0 <= slice_lo <= slice_hi < total_width - 4], below the enable tag. *)
Theorem data_slices_below_enable_tag_in_range (j : document) :
  valid_module_spec j ->
  Forall in_float_range (parameters j) ->
  exists ws, parameter_hex_widths j = Ok ws
    /\ Forall (fun s => 0 <= snd s <= fst s /\ fst s < total_width ws - 4)
              (generate_bit_slice_indices ws (parameter_widths j)).
Proof.
  intros Hv Hr. eexists. split; [apply parameter_hex_widths_in_range, Hr|].
  pose proof (slices_within_vector j _ Hv Hr (parameter_hex_widths_in_range j Hr)) as H.
  eapply Forall_impl; [|exact H]. intros [sh sl]. cbn [fst snd]. tauto.
Qed.

Lemma adder_in_range : Forall in_float_range (parameters adder).
Proof.
  repeat (constructor; [unfold in_float_range; split; discriminate|]).
  constructor.
Qed.

Lemma data_slices_below_enable_tag_in_range_witness :
  valid_module_spec adder /\ Forall in_float_range (parameters adder)
  /\ exists ws, parameter_hex_widths adder = Ok ws.
Proof.
  split; [exact adder_valid|]. split; [exact adder_in_range|].
  destruct (data_slices_below_enable_tag_in_range adder adder_valid adder_in_range)
    as (ws & Hws & _).
  exists ws. exact Hws.
Defined.

(** X9. Under the same conditions no two fields share a bit: the data slice
    of a field declared later lies wholly below the data slice of a field
    declared earlier. *)
Theorem data_slices_disjoint_in_range (j : document) :
  valid_module_spec j ->
  Forall in_float_range (parameters j) ->
  exists ws, parameter_hex_widths j = Ok ws
    /\ forall (i k : nat) (si sk : Z * Z),
         (i < k)%nat ->
         nth_error (generate_bit_slice_indices ws (parameter_widths j)) i = Some si ->
         nth_error (generate_bit_slice_indices ws (parameter_widths j)) k = Some sk ->
         fst sk < snd si.
Proof.
  intros [_ Hv] Hr. eexists. split; [apply parameter_hex_widths_in_range, Hr|].
  rewrite generate_bit_slice_indices_eq.
  apply slices_from_descending. unfold parameter_widths.
  apply chunks_hold_fields, Hv.
Qed.

Lemma data_slices_disjoint_in_range_witness :
  valid_module_spec adder /\ Forall in_float_range (parameters adder)
  /\ exists ws, parameter_hex_widths adder = Ok ws
       /\ forall si sk,
            nth_error (generate_bit_slice_indices ws (parameter_widths adder)) 0 = Some si ->
            nth_error (generate_bit_slice_indices ws (parameter_widths adder)) 2 = Some sk ->
            fst sk < snd si.
Proof.
  split; [exact adder_valid|]. split; [exact adder_in_range|].
  destruct (data_slices_disjoint_in_range adder adder_valid adder_in_range)
    as (ws & Hws & H).
  exists ws. split; [exact Hws|].
  intros si sk. apply (H 0%nat 2%nat). lia.
Defined.

(** * Further properties of the code generation functions *)

Lemma fold_left_ext {A B : Type} (f g : A -> B -> A) (l : list B) (a : A) :
  (forall a x, f a x = g a x) -> fold_left f l a = fold_left g l a.
Proof.
  intros H. revert a. induction l as [|x l IH]; intros a; simpl; [reflexivity|].
  rewrite H. apply IH.
Qed.

Lemma fold_left_lines {A : Type} (g : A -> string) (l : list A) (acc : string) :
  fold_left (fun out x => out ++ g x) l acc = acc ++ lines_of g l.
Proof.
  revert acc. induction l as [|x l IH]; intros acc; simpl.
  - symmetry. apply append_nil_r.
  - rewrite IH. apply append_assoc.
Qed.

Lemma fold_left_filter_lines {A : Type} (b : A -> bool) (g : A -> string)
    (l : list A) (acc : string) :
  fold_left (fun out x => if b x then out ++ g x else out) l acc
  = acc ++ lines_of g (filter b l).
Proof.
  revert acc. induction l as [|x l IH]; intros acc; simpl.
  - symmetry. apply append_nil_r.
  - rewrite IH. destruct (b x); [|reflexivity].
    cbn [lines_of]. apply append_assoc.
Qed.

Lemma lines_of_app {A : Type} (g : A -> string) (l1 l2 : list A) :
  lines_of g (l1 ++ l2)%list = lines_of g l1 ++ lines_of g l2.
Proof.
  induction l1 as [|x l1 IH]; simpl; [reflexivity|].
  rewrite IH. symmetry. apply append_assoc.
Qed.

(** ** The arguments of the display function *)

(** The loop with its counter is a join of the lines. *)
Lemma format_params_join (slice_index_tuples : list (Z * Z)) :
  codegen_format_params slice_index_tuples
  = Py.join ("," ++ nl) (map format_param_line slice_index_tuples).
Proof.
  unfold codegen_format_params.
  set (n := Z.of_nat (List.length slice_index_tuples)).
  match goal with |- fst (fold_left ?f _ _) = _ => set (F := f) end.
  assert (Hmore : forall (r : list (Z * Z)) i,
            i + 1 + Z.of_nat (List.length r) = n ->
            (i + 1 <? n) = match r with [] => false | _ => true end).
  { intros r i Hn. destruct r; cbn [List.length] in Hn;
      [apply Z.ltb_ge | apply Z.ltb_lt]; lia. }
  assert (Htail : forall r out i,
            0 < i -> i + Z.of_nat (List.length r) = n ->
            fst (fold_left F r
                   (out ++ match r with [] => EmptyString | _ => "," end, i))
            = out ++ fold_right (fun y acc => ("," ++ nl) ++ y ++ acc) EmptyString
                       (map format_param_line r)).
  { induction r as [|[hi lo] r IH]; intros out i Hi Hn.
    - cbn [fold_left fst map fold_right]. reflexivity.
    - cbn [fold_left map fold_right]. unfold F at 2.
      assert (H0 : (0 <? i) = true) by (apply Z.ltb_lt; exact Hi).
      rewrite H0, (Hmore r i) by (cbn [List.length] in Hn; lia).
      destruct r as [|t r].
      + cbn [fold_left fst map fold_right]. unfold format_param_line.
        cbn [fst snd]. rewrite !append_assoc. reflexivity.
      + rewrite (IH _ (i + 1)) by (cbn [List.length] in *; lia).
        unfold format_param_line. cbn [fst snd].
        rewrite !append_assoc. reflexivity. }
  destruct slice_index_tuples as [|[hi lo] r]; [reflexivity|].
  cbn [map]. rewrite join_cons. cbn [fold_left]. unfold F at 2.
  cbn [Z.ltb Z.compare].
  assert (Hn : 1 + Z.of_nat (List.length r) = n)
    by (subst n; cbn [List.length]; lia).
  rewrite (Hmore r 0) by lia. change (0 + 1) with 1.
  destruct r as [|t r].
  - cbn [fold_left fst map fold_right]. unfold format_param_line.
    cbn [fst snd]. rewrite append_nil_r. reflexivity.
  - rewrite (Htail (t :: r) _ 1 ltac:(lia) Hn).
    unfold format_param_line. cbn [fst snd]. reflexivity.
Qed.

(** X10. [codegen_format_params] is the [",\n"]-join of one
    [vec[hi:lo]] line per slice, each indented by 19 spaces: a comma after
    every line but the last, no line break before the first, and the empty
    text for no slice. *)
Theorem codegen_format_params_is_join (slice_index_tuples : list (Z * Z)) :
  codegen_format_params slice_index_tuples
  = Py.join ("," ++ nl) (map format_param_line slice_index_tuples)
  /\ codegen_format_params [] = EmptyString.
Proof.
  split; [apply format_params_join | reflexivity].
Qed.

(** ** Declarations *)

(** The three loops are three filters. *)
Lemma input_decls_filters (variables_list : list param) :
  codegen_input_decls variables_list
  = (nl ++ "    // Inputs." ++ nl)
      ++ lines_of (decl_line EmptyString) (filter is_input variables_list)
      ++ (nl ++ "    // Outputs." ++ nl)
      ++ lines_of (decl_line EmptyString) (filter is_output variables_list)
      ++ (nl ++ "    // Expected Outputs." ++ nl)
      ++ lines_of (decl_line "_e") (filter is_output variables_list).
Proof.
  unfold codegen_input_decls.
  rewrite (fold_left_filter_lines is_output (decl_line "_e")).
  rewrite (fold_left_filter_lines is_output (decl_line EmptyString)).
  rewrite (fold_left_filter_lines is_input (decl_line EmptyString)).
  cbn [append]. rewrite !append_assoc. reflexivity.
Qed.

(** X11. [codegen_input_decls] is three headed groups: a declaration for
    every input, a declaration for every output, and a declaration with the
    suffix [_e] for every output, each group in declaration order; a
    description with no field leaves the three headings. *)
Theorem codegen_input_decls_groups (variables_list : list param) :
  codegen_input_decls variables_list
  = (nl ++ "    // Inputs." ++ nl)
      ++ lines_of (decl_line EmptyString) (filter is_input variables_list)
      ++ (nl ++ "    // Outputs." ++ nl)
      ++ lines_of (decl_line EmptyString) (filter is_output variables_list)
      ++ (nl ++ "    // Expected Outputs." ++ nl)
      ++ lines_of (decl_line "_e") (filter is_output variables_list).
Proof. apply input_decls_filters. Qed.

(** X12. A field whose direction is neither ["input"] nor ["output"] is
    declared nowhere: the declarations are those of the description without
    it. *)
Theorem codegen_input_decls_skips_other_directions
    (before after : list param) (v : param) :
  is_input v = false -> is_output v = false ->
  codegen_input_decls (before ++ v :: after)%list
  = codegen_input_decls (before ++ after)%list.
Proof.
  intros Hi Ho. rewrite !input_decls_filters.
  rewrite !filter_app. cbn [filter]. rewrite Hi, Ho. reflexivity.
Qed.

Lemma codegen_input_decls_skips_other_directions_witness :
  is_input (field "clk" "inout" 0 0) = false
  /\ is_output (field "clk" "inout" 0 0) = false
  /\ codegen_input_decls (parameters adder ++ [field "clk" "inout" 0 0])%list
     = codegen_input_decls (parameters adder ++ [])%list.
Proof.
  split; [reflexivity|]. split; [reflexivity|].
  exact (codegen_input_decls_skips_other_directions (parameters adder) []
           (field "clk" "inout" 0 0) eq_refl eq_refl).
Defined.

(** ** Column alignment *)

Lemma fold_max_spec (r : list Z) (x : Z) :
  x <= fold_left Z.max r x
  /\ Forall (fun y => y <= fold_left Z.max r x) r
  /\ (fold_left Z.max r x = x \/ In (fold_left Z.max r x) r).
Proof.
  revert x. induction r as [|y r IH]; intros x; cbn [fold_left].
  - repeat split; [lia | constructor | left; reflexivity].
  - destruct (IH (Z.max x y)) as (H1 & H2 & H3).
    split; [lia|]. split; [constructor; [lia | exact H2]|].
    destruct H3 as [H3|H3]; [|right; right; exact H3].
    rewrite H3. destruct (Z.max_spec x y) as [[_ ->]|[_ ->]];
      [right; left; reflexivity | left; reflexivity].
Qed.

Lemma max_spec (l : list Z) (m : Z) :
  Py.max l = Ok m -> Forall (fun y => y <= m) l /\ In m l.
Proof.
  destruct l as [|x r]; cbn [Py.max]; [discriminate|].
  intros H. assert (Hm : fold_left Z.max r x = m) by congruence. subst m.
  destruct (fold_max_spec r x) as (H1 & H2 & H3).
  split; [constructor; assumption|].
  destruct H3 as [->|H3]; [left; reflexivity | right; exact H3].
Qed.

Lemma length_append (a b : string) :
  String.length (a ++ b) = (String.length a + String.length b)%nat.
Proof. induction a as [|x a IH]; simpl; [reflexivity | now rewrite IH]. Qed.

Lemma length_repeat_space (n : nat) : String.length (Py.repeat " " n) = n.
Proof. induction n as [|n IH]; simpl; [reflexivity | now rewrite IH]. Qed.

(** A padded text has the width asked for, unless it was longer already. *)
Lemma len_format_width (s : string) (width : Z) :
  Py.len (Py.format_width s width) = Z.max width (Py.len s).
Proof.
  unfold Py.format_width, Py.len.
  rewrite length_append, length_repeat_space. lia.
Qed.

Lemma names_bounded (l : list param) (m : Z) (v : param) :
  Py.max (map (fun v => Py.len (name v)) l) = Ok m ->
  In v l -> Py.len (name v) <= m.
Proof.
  intros Hm Hin. apply max_spec in Hm as [Hall _].
  rewrite Forall_forall in Hall. apply Hall.
  apply (in_map (fun v => Py.len (name v))), Hin.
Qed.

Lemma initial_begin_decls_lines (variables_list : list param) (m : Z) :
  Py.max (map (fun v => Py.len (name v)) variables_list) = Ok m ->
  codegen_initial_begin_decls variables_list
  = Ok (lines_of (initial_line m) (filter is_input variables_list)).
Proof.
  intros Hm. unfold codegen_initial_begin_decls. rewrite Hm. cbn [bind].
  f_equal. rewrite (fold_left_filter_lines is_input (initial_line m)).
  reflexivity.
Qed.

(** X13. [codegen_initial_begin_decls] raises [ValueError] exactly on the
    empty list of fields, where there would be nothing to initialise;
    a list without any input gives the empty text. *)
Theorem codegen_initial_begin_decls_raises_iff_empty (variables_list : list param) :
  (codegen_initial_begin_decls variables_list = Err ValueError
   <-> variables_list = [])
  /\ (variables_list <> [] -> filter is_input variables_list = [] ->
      codegen_initial_begin_decls variables_list = Ok EmptyString).
Proof.
  destruct variables_list as [|v l].
  - split; [split; reflexivity | congruence].
  - assert (Hm : exists m, Py.max (map (fun v => Py.len (name v)) (v :: l)) = Ok m)
      by (apply max_nonempty; discriminate).
    destruct Hm as [m Hm]. rewrite (initial_begin_decls_lines _ m Hm).
    split; [split; discriminate|].
    intros _ ->. reflexivity.
Qed.

Lemma codegen_initial_begin_decls_raises_iff_empty_witness :
  [field "sum" "output" 8 0] <> []
  /\ filter is_input [field "sum" "output" 8 0] = []
  /\ codegen_initial_begin_decls [field "sum" "output" 8 0] = Ok EmptyString.
Proof.
  assert (Hne : [field "sum" "output" 8 0] <> []) by discriminate.
  split; [exact Hne|]. split; [reflexivity|].
  exact (proj2 (codegen_initial_begin_decls_raises_iff_empty
                  [field "sum" "output" 8 0]) Hne eq_refl).
Defined.

(** X14. For a non-empty list [codegen_initial_begin_decls] gives one line
    per input, in declaration order: 8 spaces, the name padded to the
    longest name of all fields, inputs or not, and [" = 0;"]. Every name
    fits the padding, so the [=] signs stand in one column. *)
Theorem codegen_initial_begin_decls_aligned (variables_list : list param) :
  variables_list <> [] ->
  exists m,
    Py.max (map (fun v => Py.len (name v)) variables_list) = Ok m
    /\ codegen_initial_begin_decls variables_list
       = Ok (lines_of (initial_line m) (filter is_input variables_list))
    /\ (exists v, In v variables_list /\ Py.len (name v) = m)
    /\ forall v, In v variables_list ->
         Py.len (Py.format_width (name v) m) = m.
Proof.
  intros Hne.
  destruct (max_nonempty (map (fun v => Py.len (name v)) variables_list)) as [m Hm].
  { destruct variables_list; [congruence | discriminate]. }
  exists m. split; [exact Hm|].
  split; [apply initial_begin_decls_lines, Hm|]. split.
  - destruct (max_spec _ _ Hm) as [_ Hin].
    apply in_map_iff in Hin as (v & Hv & Hin). exists v. split; assumption.
  - intros v Hin. rewrite len_format_width.
    pose proof (names_bounded _ _ _ Hm Hin). lia.
Qed.

Lemma codegen_initial_begin_decls_aligned_witness :
  parameters adder <> []
  /\ exists m,
       codegen_initial_begin_decls (parameters adder)
       = Ok (lines_of (initial_line m) (filter is_input (parameters adder))).
Proof.
  assert (Hne : parameters adder <> []) by discriminate.
  split; [exact Hne|].
  destruct (codegen_initial_begin_decls_aligned (parameters adder) Hne)
    as (m & _ & H & _).
  exists m. exact H.
Defined.

(** ** Extraction of the fields *)

Lemma dut_stimulate_block_lines (variables_list : list param)
    (bit_slices_list : list (Z * Z)) (m : Z) :
  Py.max (map (fun v => Py.len (name v)) variables_list) = Ok m ->
  codegen_dut_stimulate_block variables_list bit_slices_list
  = Ok (lines_of (stimulate_line (m + 2)) (combine variables_list bit_slices_list)).
Proof.
  intros Hm. unfold codegen_dut_stimulate_block. rewrite Hm. cbn [bind].
  f_equal.
  match goal with |- fold_left ?f _ _ = _ =>
    rewrite (fold_left_ext f (fun out x => out ++ stimulate_line (m + 2) x))
  end.
  - exact (fold_left_lines _ _ _).
  - intros out [v [hi lo]]. unfold stimulate_line, is_input, is_output.
    cbn [fst snd].
    destruct (String.eqb (io_type v) "input");
      [|destruct (String.eqb (io_type v) "output")];
      rewrite !append_assoc; reflexivity.
Qed.

(** X15. For a non-empty list of fields [codegen_dut_stimulate_block] gives
    one line per pair of a field and a slice, as far as the shorter list
    goes: 12 spaces, then for an input the name and for an output the name
    with [_e], padded to the longest name plus 2, and [= current[hi:lo];].
    A field of any other direction leaves the 12 spaces alone on its line.
    Names and names with [_e] all fit the padding, so the [=] signs stand in
    one column. *)
Theorem codegen_dut_stimulate_block_aligned (variables_list : list param)
    (bit_slices_list : list (Z * Z)) :
  variables_list <> [] ->
  exists m,
    Py.max (map (fun v => Py.len (name v)) variables_list) = Ok m
    /\ codegen_dut_stimulate_block variables_list bit_slices_list
       = Ok (lines_of (stimulate_line (m + 2))
                      (combine variables_list bit_slices_list))
    /\ forall v, In v variables_list ->
         Py.len (Py.format_width (name v) (m + 2)) = m + 2
         /\ Py.len (Py.format_width (name v ++ "_e") (m + 2)) = m + 2.
Proof.
  intros Hne.
  destruct (max_nonempty (map (fun v => Py.len (name v)) variables_list)) as [m Hm].
  { destruct variables_list; [congruence | discriminate]. }
  exists m. split; [exact Hm|].
  split; [apply dut_stimulate_block_lines, Hm|].
  intros v Hin. rewrite !len_format_width.
  pose proof (names_bounded _ _ _ Hm Hin) as Hb.
  assert (He : Py.len (name v ++ "_e") = Py.len (name v) + 2).
  { unfold Py.len. rewrite length_append. simpl String.length. lia. }
  rewrite He. unfold Py.len in *. lia.
Qed.

Lemma codegen_dut_stimulate_block_aligned_witness :
  parameters adder <> []
  /\ exists m,
       codegen_dut_stimulate_block (parameters adder) [(27, 20); (19, 12); (8, 0)]
       = Ok (lines_of (stimulate_line (m + 2))
               (combine (parameters adder) [(27, 20); (19, 12); (8, 0)])).
Proof.
  assert (Hne : parameters adder <> []) by discriminate.
  split; [exact Hne|].
  destruct (codegen_dut_stimulate_block_aligned (parameters adder)
              [(27, 20); (19, 12); (8, 0)] Hne) as (m & _ & H & _).
  exists m. exact H.
Defined.

(** X16. [codegen_dut_stimulate_block] raises [ValueError] exactly when the
    list of fields is empty, whatever slices it is given. *)
Theorem codegen_dut_stimulate_block_raises_iff_empty
    (variables_list : list param) (bit_slices_list : list (Z * Z)) :
  codegen_dut_stimulate_block variables_list bit_slices_list = Err ValueError
  <-> variables_list = [].
Proof.
  destruct variables_list as [|v l].
  - split; reflexivity.
  - destruct (max_nonempty (map (fun v => Py.len (name v)) (v :: l))) as [m Hm];
      [discriminate|].
    rewrite (dut_stimulate_block_lines _ _ m Hm). split; discriminate.
Qed.

Lemma codegen_dut_stimulate_block_raises_iff_empty_witness :
  codegen_dut_stimulate_block [] [(27, 20)] = Err ValueError.
Proof.
  exact (proj2 (codegen_dut_stimulate_block_raises_iff_empty [] [(27, 20)]) eq_refl).
Defined.

(** ** The mismatch expression, case by case *)

Lemma output_check_skips_inputs (ins : list param) :
  Forall (fun v => is_output v = false) ins ->
  fold_left output_check_step ins (EmptyString, 0) = (EmptyString, 0).
Proof.
  induction 1 as [|v ins Hv _ IH]; [reflexivity|].
  cbn [fold_left]. unfold output_check_step at 2. unfold is_output in Hv.
  rewrite Hv. exact IH.
Qed.

(** X17. Without any output among the fields the mismatch expression is
    the empty text. *)
Theorem codegen_output_check_expr_without_outputs (variables_list : list param) :
  Forall (fun v => is_output v = false) variables_list ->
  codegen_output_check_expr variables_list = EmptyString.
Proof.
  intros H. unfold codegen_output_check_expr.
  rewrite output_check_skips_inputs by exact H. reflexivity.
Qed.

Lemma codegen_output_check_expr_without_outputs_witness :
  Forall (fun v => is_output v = false) [field "a" "input" 7 0]
  /\ codegen_output_check_expr [field "a" "input" 7 0] = EmptyString.
Proof.
  assert (H : Forall (fun v => is_output v = false) [field "a" "input" 7 0])
    by (constructor; [reflexivity | constructor]).
  split; [exact H|].
  exact (codegen_output_check_expr_without_outputs [field "a" "input" 7 0] H).
Defined.

Lemma filter_none {A : Type} (b : A -> bool) (l : list A) :
  Forall (fun x => b x = false) l -> filter b l = [].
Proof.
  induction 1 as [|x l Hx _ IH]; [reflexivity|]. cbn [filter]. rewrite Hx. exact IH.
Qed.

Lemma filter_all {A : Type} (b : A -> bool) (l : list A) :
  Forall (fun x => b x = true) l -> filter b l = l.
Proof.
  induction 1 as [|x l Hx _ IH]; [reflexivity|]. cbn [filter]. rewrite Hx, IH.
  reflexivity.
Qed.

Lemma after_first_output_length (rest : list param) :
  String.length (after_first_output rest)
  = (String.length
       (fold_right (fun y acc => " || " ++ y ++ acc) EmptyString
          (map disjunct (filter is_output rest)))
     + 4 * List.length (filter (fun v => negb (is_output v)) rest))%nat.
Proof.
  induction rest as [|v rest IH]; [reflexivity|].
  cbn [after_first_output filter]. destruct (is_output v); cbn [negb map fold_right].
  - rewrite !length_append, IH. simpl String.length. lia.
  - rewrite !length_append, IH. cbn [List.length]. simpl String.length. lia.
Qed.

(** X18. From the first output on, every further field adds a separator to
    the mismatch expression, output or not: the expression is longer than
    the chain of the outputs' disjuncts by four characters for each field
    that follows the first output without being an output, and it is that
    chain exactly when no such field exists. *)
Theorem codegen_output_check_expr_excess (ins rest : list param) (o : param) :
  Forall (fun v => is_output v = false) ins ->
  is_output o = true ->
  let l := (ins ++ o :: rest)%list in
  let chain := Py.join " || " (map disjunct (filter is_output l)) in
  String.length (codegen_output_check_expr l)
  = (String.length chain
     + 4 * List.length (filter (fun v => negb (is_output v)) rest))%nat
  /\ (codegen_output_check_expr l = chain
      <-> Forall (fun v => is_output v = true) rest).
Proof.
  intros Hins Ho l chain.
  assert (Hlen : String.length (codegen_output_check_expr l)
                 = (String.length chain
                    + 4 * List.length (filter (fun v => negb (is_output v)) rest))%nat).
  { subst l chain. rewrite codegen_output_check_expr_shape by assumption.
    rewrite filter_app, filter_none by exact Hins.
    cbn [app filter]. rewrite Ho. cbn [map]. rewrite join_cons.
    rewrite !length_append, after_first_output_length. lia. }
  split; [exact Hlen|]. split.
  - intros Heq. rewrite Heq in Hlen.
    assert (Hnil : filter (fun v => negb (is_output v)) rest = [])
      by (destruct (filter _ rest); [reflexivity | cbn [List.length] in Hlen; lia]).
    apply Forall_forall. intros v Hin.
    destruct (is_output v) eqn:Hv; [reflexivity|].
    assert (Hf : In v (filter (fun v => negb (is_output v)) rest))
      by (apply filter_In; split; [exact Hin | rewrite Hv; reflexivity]).
    rewrite Hnil in Hf. destruct Hf.
  - intros Hall. subst l chain.
    rewrite filter_app, filter_none by exact Hins.
    cbn [app]. rewrite (filter_all is_output (o :: rest))
      by (constructor; assumption).
    apply (codegen_output_check_expr_inputs_first ins (o :: rest));
      [exact Hins | constructor; assumption].
Qed.

Lemma codegen_output_check_expr_excess_witness :
  Forall (fun v => is_output v = false) []
  /\ is_output (field "x" "output" 0 0) = true
  /\ String.length (codegen_output_check_expr output_input_output)
     = (String.length "x != x_e || y != y_e" + 4 * 1)%nat.
Proof.
  split; [constructor|]. split; [reflexivity|].
  exact (proj1 (codegen_output_check_expr_excess []
                  [field "a" "input" 0 0; field "y" "output" 0 0]
                  (field "x" "output" 0 0) (Forall_nil _) eq_refl)).
Defined.

(** ** The display call *)

(** X19. The display call is passed as many arguments as its format string
    has conversions: one [vec[hi:lo]] line for the enable tag, which is
    [vec[vec_hi_idx : vec_hi_idx - 3]], and one for each field, against one
    [%] for the tag and one for each field. *)
Theorem display_call_arity (j : document) (ws : list Z) :
  parameter_hex_widths j = Ok ws ->
  let hi := vec_hi_idx (parameter_hex_bit_widths ws) in
  let args := (hi, hi - 3) :: generate_bit_slice_indices ws (parameter_widths j) in
  codegen_format_params args = Py.join ("," ++ nl) (map format_param_line args)
  /\ List.length args = S (List.length (parameters j))
  /\ count_char "%" (generate_vector_format_str ws) = List.length args.
Proof.
  intros Hws hi args.
  pose proof (parameter_hex_widths_length j ws Hws) as Hlen.
  assert (Hargs : List.length args = S (List.length (parameters j))).
  { subst args. cbn [List.length]. f_equal.
    rewrite generate_bit_slice_indices_eq, slices_from_length, length_combine.
    unfold parameter_hex_bit_widths, parameter_widths. rewrite !length_map. lia. }
  split; [apply format_params_join|]. split; [exact Hargs|].
  rewrite Hargs.
  unfold generate_vector_format_str. rewrite fold_format_str.
  rewrite count_char_app, count_specifiers, Hlen by reflexivity.
  reflexivity.
Qed.

Lemma display_call_arity_witness :
  parameter_hex_widths adder = Ok [2; 2; 3]
  /\ count_char "%" (generate_vector_format_str [2; 2; 3])
     = List.length ((31, 28) :: generate_bit_slice_indices [2; 2; 3] (parameter_widths adder)).
Proof.
  split; [exact adder_hex_widths|].
  exact (proj2 (proj2 (display_call_arity adder [2; 2; 3] adder_hex_widths))).
Defined.
